(** * Supplier scoring, percentile classification and Pareto analysis

    A shallow embedding of

      - [SupplierScoringModel] (supplier_scoring_model.py): the weighted
        score of one supplier row and the percentile classification of a
        whole table;
      - [SegmentationAnalyzer.spend_concentration_analysis]
        (segmentation_analysis.py): the Pareto 80% supplier count.

    Numbers.  The Python code computes with binary floating point; here
    every number is an exact rational ([Q], compared with [==]), so the
    theorems are statements about the arithmetic the formulas denote, not
    about rounding.  The values of a record are finite numbers: a record
    that holds an infinity or nan, and the limited range of a float (an
    overflow on a huge value), are outside the model.  Python's [/]
    raises [ZeroDivisionError] on a zero divisor; the two divisions of
    the score whose divisor depends on the input go through [py_div], the
    divisions by the literals 100, 3 and 12 are written with [/]
    directly.

    Errors.  A Python exception is a value [Raise e] of [result]; code
    that can raise is written in the error monad below. *)

From Stdlib Require Import QArith Qround Qfield Lqa Lia List Bool Sorted.
From stdpp Require Import base strings gmap.
Import ListNotations.

Local Open Scope Q_scope.

(** ** Exceptions and the error monad *)

Inductive Exception : Type :=
| KeyError (key : string)
| ValueError (msg : string)
| ZeroDivisionError.

Inductive result (A : Type) : Type :=
| Ok (a : A)
| Raise (e : Exception).

Arguments Ok {A} a.
Arguments Raise {A} e.

#[global] Instance result_ret : MRet result := fun A a => Ok a.

#[global] Instance result_bind : MBind result := fun A B k c =>
  match c with
  | Ok a => k a
  | Raise e => Raise e
  end.

(** [for x in xs: ys.append(f x)], stopping at the first exception. *)
Fixpoint for_each {A B : Type} (f : A -> result B) (xs : list A) : result (list B) :=
  match xs with
  | [] => Ok []
  | x :: xs' => y ← f x; ys ← for_each f xs'; Ok (y :: ys)
  end.

(** Python's true division on numbers. *)
Definition py_div (a b : Q) : result Q :=
  if Qeq_bool b 0 then Raise ZeroDivisionError else Ok (a / b).

(** ** Data model *)

(** One entry of [bu_weights]: the dict with keys 'W0', 'W2', ..., 'W9'. *)
Record Weights : Type := mkWeights {
  W0 : Q;  (* BU scale factor *)
  W2 : Q;  (* sole source weight *)
  W3 : Q;  (* single source weight *)
  W4 : Q;  (* multi source weight *)
  W5 : Q;  (* ramp time weight *)
  W6 : Q;  (* spend weight *)
  W7 : Q;  (* partnership weight *)
  W8 : Q;  (* innovation weight *)
  W9 : Q   (* supply risk weight *)
}.

(** One row of the supplier table, with the columns the score reads. *)
Record Supplier : Type := mkSupplier {
  Supplier_ID : string;
  Business_Unit : string;
  Annual_Spend : Q;
  Ramp_Time_Months : Q;
  Partnership_Score : Q;
  Innovation_Score : Q;
  Supply_Risk_Score : Q;
  Sole_Source_Ratio : Q;
  Single_Source_Ratio : Q;
  Multi_Source_Ratio : Q
}.

Inductive Segment : Type :=
| Strategic
| Critical
| Operational
| Transactional.

(** [segmentation_thresholds]: the dict with the four segment names as keys. *)
Record Thresholds : Type := mkThresholds {
  th_Strategic : Q;
  th_Critical : Q;
  th_Operational : Q;
  th_Transactional : Q
}.

(** The attributes of a [SupplierScoringModel] that the scoring and the
    classification read.  [suppliers_data = None] is Python's [None]. *)
Record SupplierScoringModel : Type := mkModel {
  suppliers_data : option (list Supplier);
  bu_weights : gmap string Weights;
  segmentation_thresholds : Thresholds
}.

(** A row of the table after classification: the input columns plus
    'Score' and 'Classification'. *)
Record ScoredSupplier : Type := mkScored {
  supplier : Supplier;
  Score : Q;
  Classification : Segment
}.

(** ** [SupplierScoringModel.__init__] *)

Definition Business_Unit_A_weights : Weights :=
  {| W0 := 100; W2 := 30; W3 := 20; W4 := 1; W5 := 25;
     W6 := 10; W7 := 25; W8 := 5; W9 := 5 |}.

Definition Business_Unit_B_weights : Weights :=
  {| W0 := 100; W2 := 5; W3 := 5; W4 := 1; W5 := 20;
     W6 := 10; W7 := 25; W8 := 10; W9 := 20 |}.

Definition default_bu_weights : gmap string Weights :=
  <["Business_Unit_A"%string := Business_Unit_A_weights]>
  (<["Business_Unit_B"%string := Business_Unit_B_weights]> ∅).

Definition default_thresholds : Thresholds :=
  {| th_Strategic := 95; th_Critical := 85;
     th_Operational := 45; th_Transactional := 0 |}.

Definition init : SupplierScoringModel :=
  {| suppliers_data := None;
     bu_weights := default_bu_weights;
     segmentation_thresholds := default_thresholds |}.

(** ** [calculate_supplier_score] *)

Definition calculate_supplier_score
    (self : SupplierScoringModel) (supplier_row : Supplier)
    (business_unit : string) : result Q :=
  weights ← match bu_weights self !! business_unit with
            | Some w => Ok w
            | None => Raise (KeyError business_unit)
            end;
  let bu_impact := W0 weights / 100 in
  let bu_scale := 1 in
  let sourcing_component :=
    (W2 weights * Sole_Source_Ratio supplier_row +
     W3 weights * Single_Source_Ratio supplier_row +
     W4 weights * Multi_Source_Ratio supplier_row) / 100 in
  ramp_inv ← py_div 1 (1 + (Ramp_Time_Months supplier_row / 12) ^ 2);
  let ramp_component := W5 weights * (1 - ramp_inv) / 100 in
  spend_inv ← py_div 1 (1 + Annual_Spend supplier_row / 100);
  let spend_component := W6 weights * (1 - spend_inv) / 100 in
  let partnership_component :=
    W7 weights * (Partnership_Score supplier_row / 3) / 100 in
  let innovation_component :=
    W8 weights * (Innovation_Score supplier_row / 3) / 100 in
  let risk_component :=
    W9 weights * ((4 - Supply_Risk_Score supplier_row) / 3) / 100 in
  let total_score :=
    bu_impact * bu_scale *
    (sourcing_component + ramp_component + spend_component +
     partnership_component + innovation_component + risk_component) in
  Ok (total_score * 100).

(** ** [classify_suppliers] *)

Definition bool_to_Q (b : bool) : Q := if b then 1 else 0.

Definition Qsum (l : list Q) : Q := fold_right Qplus 0 l.

Definition len {A : Type} (l : list A) : Q := inject_Z (Z.of_nat (length l)).

(** [Series.mean()] of a boolean column: the sum of its 0/1 values over
    its length. *)
Definition mean (col : list bool) : Q := Qsum (map bool_to_Q col) / len col.

(** [(self.suppliers_data['Score'] <= score).mean() * 100] *)
Definition percentile (Score_col : list Q) (score : Q) : Q :=
  mean (map (fun s => Qle_bool s score) Score_col) * 100.

(** The [if]/[elif] chain on the percentile. *)
Definition classification_of (th : Thresholds) (pct : Q) : Segment :=
  if Qle_bool (th_Strategic th) pct then Strategic
  else if Qle_bool (th_Critical th) pct then Critical
  else if Qle_bool (th_Operational th) pct then Operational
  else Transactional.

(** Assigning the two lists as the columns 'Score' and 'Classification'. *)
Fixpoint attach_columns (data : list Supplier) (scores : list Q)
    (classifications : list Segment) : list ScoredSupplier :=
  match data, scores, classifications with
  | d :: data', s :: scores', c :: classifications' =>
      {| supplier := d; Score := s; Classification := c |}
      :: attach_columns data' scores' classifications'
  | _, _, _ => []
  end.

Definition classify_suppliers (self : SupplierScoringModel)
    : result (list ScoredSupplier) :=
  match suppliers_data self with
  | None =>
      Raise (ValueError
        "No supplier data available. Please generate or load data first.")
  | Some data =>
      scores ← for_each
        (fun supplier =>
           calculate_supplier_score self supplier (Business_Unit supplier))
        data;
      let classifications :=
        map (fun score =>
               classification_of (segmentation_thresholds self)
                 (percentile scores score))
            scores in
      Ok (attach_columns data scores classifications)
  end.

(** ** [SegmentationAnalyzer.spend_concentration_analysis] *)

(** A float64 column entry: pandas divides columns with numpy's rules,
    where a zero divisor gives an infinity or nan instead of raising. *)
Inductive float64 : Type :=
| Finite (q : Q)
| PosInf
| NegInf
| NaN.

Definition Qlt_bool (a b : Q) : bool := negb (Qle_bool b a).

Definition np_div (a b : Q) : float64 :=
  if Qeq_bool b 0 then
    if Qlt_bool 0 a then PosInf else if Qlt_bool a 0 then NegInf else NaN
  else Finite (a / b).

(** Multiplication by a positive finite constant. *)
Definition np_scale (x : float64) (k : Q) : float64 :=
  match x with
  | Finite q => Finite (q * k)
  | other => other
  end.

(** [x <= bound] for a finite bound; false on nan. *)
Definition np_le (x : float64) (bound : Q) : bool :=
  match x with
  | Finite q => Qle_bool q bound
  | NegInf => true
  | PosInf | NaN => false
  end.

(** [sort_values(column, ascending=False)], as a stable insertion sort:
    a row goes in front of the first row whose key is not larger. *)
Fixpoint insert_desc {A : Type} (key : A -> Q) (x : A) (l : list A) : list A :=
  match l with
  | [] => [x]
  | y :: l' =>
      if Qle_bool (key y) (key x) then x :: y :: l'
      else y :: insert_desc key x l'
  end.

Definition sort_values_desc {A : Type} (key : A -> Q) (l : list A) : list A :=
  fold_right (insert_desc key) [] l.

(** [Series.cumsum()] *)
Fixpoint cumsum_from (acc : Q) (col : list Q) : list Q :=
  match col with
  | [] => []
  | x :: col' => (acc + x) :: cumsum_from (acc + x) col'
  end.

Definition cumsum (col : list Q) : list Q := cumsum_from 0 col.

(** Number of [True] entries of a boolean column: [Series.sum()]. *)
Definition count_true (col : list bool) : nat := length (List.filter id col).

(** The two Pareto entries of the returned dict; the per-segment spend
    table and the top-10 share are not part of this model. *)
Record SpendAnalysis : Type := mkSpendAnalysis {
  pareto_80_suppliers_pct : float64;
  pareto_80_supplier_count : nat
}.

Definition spend_concentration_analysis (data : list ScoredSupplier)
    : SpendAnalysis :=
  let sorted_suppliers :=
    sort_values_desc (fun row => Annual_Spend (supplier row)) data in
  let spend_col := map (fun row => Annual_Spend (supplier row)) sorted_suppliers in
  let cumulative_spend := cumsum spend_col in
  let total_spend := Qsum spend_col in
  let cumulative_spend_pct :=
    map (fun c => np_scale (np_div c total_spend) 100) cumulative_spend in
  let pareto_80_index :=
    count_true (map (fun p => np_le p 80) cumulative_spend_pct) in
  let pareto_80_pct :=
    np_scale
      (np_div (inject_Z (Z.of_nat pareto_80_index)) (len sorted_suppliers))
      100 in
  {| pareto_80_suppliers_pct := pareto_80_pct;
     pareto_80_supplier_count := pareto_80_index |}.

(** ** The specification's formulas *)

(** The closed form of the score: six components, summed, multiplied by
    [scaleFactor/100] and then by 100. *)
Definition score_formula (w : Weights) (r : Supplier) : Q :=
  let sourcing_mix :=
    (W2 w * Sole_Source_Ratio r + W3 w * Single_Source_Ratio r
     + W4 w * Multi_Source_Ratio r) / 100 in
  let ramp :=
    W5 w * (1 - 1 / (1 + (Ramp_Time_Months r / 12) ^ 2)) / 100 in
  let spend := W6 w * (1 - 1 / (1 + Annual_Spend r / 100)) / 100 in
  let partnership := W7 w * (Partnership_Score r / 3) / 100 in
  let innovation := W8 w * (Innovation_Score r / 3) / 100 in
  let risk := W9 w * ((4 - Supply_Risk_Score r) / 3) / 100 in
  (sourcing_mix + ramp + spend + partnership + innovation + risk)
  * (W0 w / 100) * 100.

(** Inclusive percentile rank: the fraction of the table whose score is
    at most [score], times 100. *)
Definition inclusive_rank (Score_col : list Q) (score : Q) : Q :=
  len (List.filter (fun s => Qle_bool s score) Score_col) / len Score_col * 100.

(** The order of the segments, most strategic highest. *)
Definition segment_rank (c : Segment) : nat :=
  match c with
  | Strategic => 3
  | Critical => 2
  | Operational => 1
  | Transactional => 0
  end.

(** Size of the smallest prefix of a spend column (already sorted) whose
    cumulative share of [total] reaches 80%; [None] when no prefix does. *)
Fixpoint first_reaching_80 (total acc : Q) (col : list Q) : option nat :=
  match col with
  | [] => None
  | x :: col' =>
      if Qle_bool 80 ((acc + x) / total * 100) then Some 1%nat
      else option_map S (first_reaching_80 total (acc + x) col')
  end.

Definition pareto_cutoff (data : list ScoredSupplier) : option nat :=
  let col :=
    map (fun row => Annual_Spend (supplier row))
        (sort_values_desc (fun row => Annual_Spend (supplier row)) data) in
  first_reaching_80 (Qsum col) 0 col.

(** ** Example rows *)

Definition supplier_X : Supplier :=
  {| Supplier_ID := "X"; Business_Unit := "Business_Unit_A";
     Annual_Spend := 500; Ramp_Time_Months := 24;
     Partnership_Score := 3; Innovation_Score := 3; Supply_Risk_Score := 1;
     Sole_Source_Ratio := 1; Single_Source_Ratio := 0; Multi_Source_Ratio := 0 |}.

Definition supplier_Y : Supplier :=
  {| Supplier_ID := "Y"; Business_Unit := "Business_Unit_A";
     Annual_Spend := 1; Ramp_Time_Months := 3;
     Partnership_Score := 1; Innovation_Score := 1; Supply_Risk_Score := 3;
     Sole_Source_Ratio := 0; Single_Source_Ratio := 0; Multi_Source_Ratio := 1 |}.


(** A row with a negative spend and a partnership rating outside 1..3. *)
Definition malformed_row : Supplier :=
  {| Supplier_ID := "M"; Business_Unit := "Business_Unit_A";
     Annual_Spend := -50; Ramp_Time_Months := 6;
     Partnership_Score := 7; Innovation_Score := 2; Supply_Risk_Score := 2;
     Sole_Source_Ratio := 0; Single_Source_Ratio := 0; Multi_Source_Ratio := 1 |}.

(** A record with a negative numeric input or a rating outside 1..3. *)
Definition malformed (r : Supplier) : Prop :=
  Annual_Spend r < 0 \/ Ramp_Time_Months r < 0 \/
  Sole_Source_Ratio r < 0 \/ Single_Source_Ratio r < 0 \/
  Multi_Source_Ratio r < 0 \/
  ~ (1 <= Partnership_Score r <= 3) \/
  ~ (1 <= Innovation_Score r <= 3) \/
  ~ (1 <= Supply_Risk_Score r <= 3).

(** A number of magnitude at most 10^150: as a float or as an int its
    quotients and its square stay far inside the range of a float. *)
Definition moderate (x : Q) : Prop := - (10 ^ 150) <= x /\ x <= 10 ^ 150.

(** A record all of whose numeric values are of moderate magnitude. *)
Definition within_float_range (r : Supplier) : Prop :=
  moderate (Annual_Spend r) /\ moderate (Ramp_Time_Months r) /\
  moderate (Partnership_Score r) /\ moderate (Innovation_Score r) /\
  moderate (Supply_Risk_Score r) /\ moderate (Sole_Source_Ratio r) /\
  moderate (Single_Source_Ratio r) /\ moderate (Multi_Source_Ratio r).

(** The conditions on a record and on a weight configuration under which
    the score is claimed to lie in [0, 100]. *)
Definition record_in_range (r : Supplier) : Prop :=
  (0 <= Sole_Source_Ratio r <= 1) /\
  (0 <= Single_Source_Ratio r <= 1) /\
  (0 <= Multi_Source_Ratio r <= 1) /\
  0 < Ramp_Time_Months r /\
  0 <= Annual_Spend r /\
  (1 <= Partnership_Score r <= 3) /\
  (1 <= Innovation_Score r <= 3) /\
  (1 <= Supply_Risk_Score r <= 3).

Definition weights_in_range (w : Weights) : Prop :=
  0 <= W2 w /\ 0 <= W3 w /\ 0 <= W4 w /\ 0 <= W5 w /\
  0 <= W6 w /\ 0 <= W7 w /\ 0 <= W8 w /\ 0 <= W9 w /\
  W2 w + W3 w + W4 w + W5 w + W6 w + W7 w + W8 w + W9 w <= 100 /\
  W0 w <= 100.

(** ** Predicates and sample tables of the statements *)

(** A row can be scored: its business unit has weights and its spend is
    not the value at which the spend component divides by zero. *)
Definition scorable (self : SupplierScoringModel) (d : Supplier) : Prop :=
  is_Some (bu_weights self !! Business_Unit d) /\ ~ Annual_Spend d == -100.

(** What a successful run of [classify_suppliers] returns. *)
Record classified (self : SupplierScoringModel) (data : list Supplier)
    (out : list ScoredSupplier) : Prop := {
  classified_rows : map supplier out = data;
  classified_scores :
    Forall (fun a => calculate_supplier_score self (supplier a)
                       (Business_Unit (supplier a)) = Ok (Score a)) out;
  classified_labels :
    forall a, In a out ->
      Classification a =
      classification_of (segmentation_thresholds self)
        (percentile (map Score out) (Score a))
}.

(** A model holding a two-row table, and one holding a table of zero rows. *)
Definition two_row_model : SupplierScoringModel :=
  {| suppliers_data := Some [supplier_X; supplier_Y];
     bu_weights := default_bu_weights;
     segmentation_thresholds := default_thresholds |}.

Definition zero_row_model : SupplierScoringModel :=
  {| suppliers_data := Some [];
     bu_weights := default_bu_weights;
     segmentation_thresholds := default_thresholds |}.

(** A classified row with a given annual spend. *)
Definition spend_row (spend : Q) : ScoredSupplier :=
  {| supplier :=
       {| Supplier_ID := "S"; Business_Unit := "Business_Unit_A";
          Annual_Spend := spend; Ramp_Time_Months := 6;
          Partnership_Score := 2; Innovation_Score := 2; Supply_Risk_Score := 2;
          Sole_Source_Ratio := 0; Single_Source_Ratio := 0;
          Multi_Source_Ratio := 1 |};
     Score := 50; Classification := Operational |}.

Definition spend_key (row : ScoredSupplier) : Q := Annual_Spend (supplier row).

(** [cumulative_spend_pct <= 80] for one cumulative spend. *)
Definition within_80 (total c : Q) : bool :=
  np_le (np_scale (np_div c total) 100) 80.

(** The count of [spend_concentration_analysis], on a spend column with
    its total and running sum made explicit. *)
Definition count_within_80 (total acc : Q) (col : list Q) : nat :=
  count_true
    (map (fun p => np_le p 80)
       (map (fun c => np_scale (np_div c total) 100) (cumsum_from acc col))).

(** A table sorted by descending key. *)
Definition descending {A : Type} (key : A -> Q) : list A -> Prop :=
  StronglySorted (fun a b => key b <= key a).

(** Where a row of key 0 sits in the sorted table: after rows of
    non-negative key and before rows of non-positive key. *)
Inductive zero_inserted {A : Type} (key : A -> Q) (z : A)
    : list A -> list A -> Prop :=
| zero_inserted_at (front back : list A) :
    Forall (fun y => 0 <= key y) front ->
    Forall (fun y => key y <= 0) back ->
    zero_inserted key z (front ++ back) (front ++ z :: back).

(** ** [SegmentationAnalyzer.segment_profile_analysis] *)

Definition Segment_eqb (a b : Segment) : bool :=
  match a, b with
  | Strategic, Strategic | Critical, Critical
  | Operational, Operational | Transactional, Transactional => true
  | _, _ => false
  end.

(** [Series.mean()] of a numeric column. *)
Definition column_mean (col : list Q) : Q := Qsum col / len col.

(** One value of the [profiles] dict. *)
Record SegmentProfile : Type := mkSegmentProfile {
  count : nat;
  avg_score : Q;
  avg_spend : Q;
  avg_ramp_time : Q;
  avg_partnership : Q;
  avg_innovation : Q;
  avg_risk : Q;
  sole_source_ratio : Q;
  spend_concentration : float64
}.

(** [self.data[self.data['Classification'] == segment]] *)
Definition segment_rows (data : list ScoredSupplier) (segment : Segment)
    : list ScoredSupplier :=
  List.filter (fun row => Segment_eqb (Classification row) segment) data.

(** The dict built for a non-empty segment. *)
Definition segment_profile (data segment_data : list ScoredSupplier)
    : SegmentProfile :=
  {| count := length segment_data;
     avg_score := column_mean (map Score segment_data);
     avg_spend :=
       column_mean (map (fun row => Annual_Spend (supplier row)) segment_data);
     avg_ramp_time :=
       column_mean
         (map (fun row => Ramp_Time_Months (supplier row)) segment_data);
     avg_partnership :=
       column_mean
         (map (fun row => Partnership_Score (supplier row)) segment_data);
     avg_innovation :=
       column_mean
         (map (fun row => Innovation_Score (supplier row)) segment_data);
     avg_risk :=
       column_mean
         (map (fun row => Supply_Risk_Score (supplier row)) segment_data);
     sole_source_ratio :=
       column_mean
         (map (fun row => Sole_Source_Ratio (supplier row)) segment_data);
     spend_concentration :=
       np_div
         (Qsum (map (fun row => Annual_Spend (supplier row)) segment_data))
         (Qsum (map (fun row => Annual_Spend (supplier row)) data)) |}.

(** The [profiles] dict, as the list of its items in insertion order; the
    method also stores it under 'segment_profiles' in
    [self.analysis_results]. *)
Definition segment_profile_analysis (data : list ScoredSupplier)
    : list (Segment * SegmentProfile) :=
  let segments := [Strategic; Critical; Operational; Transactional] in
  fold_left
    (fun profiles segment =>
       let segment_data := segment_rows data segment in
       if (0 <? length segment_data)%nat then
         let profile := segment_profile data segment_data in
         profiles ++ [(segment, profile)]
       else profiles)
    segments [].

(** The item a segment contributes to the dict, if any. *)
Definition profile_item (data : list ScoredSupplier) (segment : Segment)
    : list (Segment * SegmentProfile) :=
  if (0 <? length (segment_rows data segment))%nat then
    [(segment, segment_profile data (segment_rows data segment))]
  else [].

(** A classified row of a given segment, score and spend. *)
Definition segment_row (c : Segment) (score spend : Q) : ScoredSupplier :=
  {| supplier := supplier (spend_row spend);
     Score := score; Classification := c |}.

(** ** [SegmentationAnalyzer.business_unit_analysis] *)

(** [Series.unique()]: the distinct values in order of first appearance. *)
Fixpoint unique (l : list string) : list string :=
  match l with
  | [] => []
  | x :: l' => x :: List.filter (fun y => negb (String.eqb y x)) (unique l')
  end.

(** [self.data[self.data['Business_Unit'] == bu]] *)
Definition unit_rows (data : list ScoredSupplier) (bu : string)
    : list ScoredSupplier :=
  List.filter (fun row => String.eqb (Business_Unit (supplier row)) bu) data.

(** [value_counts(normalize=True) * 100] of the 'Classification' column,
    turned into a dict: the dict is given by its lookup, a segment without
    rows has no entry. *)
Definition segment_distribution_of (rows : list ScoredSupplier)
    (segment : Segment) : option Q :=
  let c := length (segment_rows rows segment) in
  if (0 <? c)%nat then Some (inject_Z (Z.of_nat c) / len rows * 100)
  else None.

(** One value of the [bu_analysis] dict; its 'avg_score' entry is the
    field [unit_avg_score]. *)
Record UnitMetrics : Type := mkUnitMetrics {
  total_suppliers : nat;
  total_spend : Q;
  unit_avg_score : Q;
  segment_distribution : Segment -> option Q;
  strategic_spend_share : float64
}.

Definition unit_metrics (bu_data : list ScoredSupplier) : UnitMetrics :=
  {| total_suppliers := length bu_data;
     total_spend := Qsum (map (fun row => Annual_Spend (supplier row)) bu_data);
     unit_avg_score := column_mean (map Score bu_data);
     segment_distribution := segment_distribution_of bu_data;
     strategic_spend_share :=
       np_scale
         (np_div
            (Qsum (map (fun row => Annual_Spend (supplier row))
                     (segment_rows bu_data Strategic)))
            (Qsum (map (fun row => Annual_Spend (supplier row)) bu_data)))
         100 |}.

(** The [bu_analysis] dict, as the list of its items in insertion order;
    the method also stores it under 'business_unit_analysis' in
    [self.analysis_results]. *)
Definition business_unit_analysis (data : list ScoredSupplier)
    : list (string * UnitMetrics) :=
  let business_units :=
    unique (map (fun row => Business_Unit (supplier row)) data) in
  map (fun bu => (bu, unit_metrics (unit_rows data bu))) business_units.

(** A classified row of a given business unit, segment and spend. *)
Definition unit_row (bu : string) (c : Segment) (spend : Q) : ScoredSupplier :=
  {| supplier := {| Supplier_ID := "S"; Business_Unit := bu;
                    Annual_Spend := spend; Ramp_Time_Months := 6;
                    Partnership_Score := 2; Innovation_Score := 2;
                    Supply_Risk_Score := 2; Sole_Source_Ratio := 0;
                    Single_Source_Ratio := 0; Multi_Source_Ratio := 1 |};
     Score := 50; Classification := c |}.

(** ** [SupplierScoringModel.identify_top_suppliers] *)

(** Rounding to the nearest integer, halves to the even one (numpy's
    [rint]). *)
Definition round_half_even (q : Q) : Z :=
  let f := Qfloor q in
  let r := q - inject_Z f in
  if Qlt_bool r (1 # 2) then f
  else if Qlt_bool (1 # 2) r then (f + 1)%Z
  else if Z.even f then f else (f + 1)%Z.

(** [round(2)] on a numeric value. *)
Definition round2 (q : Q) : Q := inject_Z (round_half_even (q * 100)) / 100.

(** [DataFrame.nlargest(n, column)]: the [n] first rows of the table in
    descending order of the column, rows of equal value in table order;
    none when [n] is not positive. *)
Definition nlargest {A : Type} (n : Z) (key : A -> Q) (data : list A) : list A :=
  firstn (Z.to_nat n) (sort_values_desc key data).

(** A row of the returned table: the eight selected columns. *)
Record TopSupplier : Type := mkTopSupplier {
  top_Supplier_ID : string;
  top_Business_Unit : string;
  top_Classification : Segment;
  top_Score : Q;
  top_Annual_Spend : Q;
  top_Partnership_Score : Q;
  top_Innovation_Score : Q;
  top_Supply_Risk_Score : Q
}.

(** The column selection followed by [round(2)], on one row. *)
Definition select_round (row : ScoredSupplier) : TopSupplier :=
  {| top_Supplier_ID := Supplier_ID (supplier row);
     top_Business_Unit := Business_Unit (supplier row);
     top_Classification := Classification row;
     top_Score := round2 (Score row);
     top_Annual_Spend := round2 (Annual_Spend (supplier row));
     top_Partnership_Score := round2 (Partnership_Score (supplier row));
     top_Innovation_Score := round2 (Innovation_Score (supplier row));
     top_Supply_Risk_Score := round2 (Supply_Risk_Score (supplier row)) |}.

(** The table returned for a classified [suppliers_data]; the printing
    of the table is not modelled. *)
Definition identify_top_suppliers (suppliers_data : list ScoredSupplier)
    (n_top : Z) : list TopSupplier :=
  map select_round (nlargest n_top Score suppliers_data).

(** ** [generate_sample_supplier_data]: the derived metrics of a row *)

(** The three part counts of a generated row (Poisson draws, so natural
    numbers). *)
Record PartCounts : Type := mkPartCounts {
  Sole_Source_Parts : nat;
  Single_Source_Parts : nat;
  Multi_Source_Parts : nat
}.

Definition total_parts (p : PartCounts) : nat :=
  (Sole_Source_Parts p + Single_Source_Parts p + Multi_Source_Parts p)%nat.

(** [parts / max(total_parts, 1)] *)
Definition parts_ratio (parts total : nat) : Q :=
  inject_Z (Z.of_nat parts) / inject_Z (Z.of_nat (Nat.max total 1)).

(** The row of the table built from its identifier, the random draws and
    the ratios derived from the part counts. *)
Definition generated_row (supplier_id business_unit : string)
    (spend ramp partnership innovation risk : Q) (p : PartCounts) : Supplier :=
  {| Supplier_ID := supplier_id;
     Business_Unit := business_unit;
     Annual_Spend := spend;
     Ramp_Time_Months := ramp;
     Partnership_Score := partnership;
     Innovation_Score := innovation;
     Supply_Risk_Score := risk;
     Sole_Source_Ratio := parts_ratio (Sole_Source_Parts p) (total_parts p);
     Single_Source_Ratio := parts_ratio (Single_Source_Parts p) (total_parts p);
     Multi_Source_Ratio := parts_ratio (Multi_Source_Parts p) (total_parts p) |}.

(** ** Rows that differ in one column *)

Definition with_Annual_Spend (r : Supplier) (x : Q) : Supplier :=
  {| Supplier_ID := Supplier_ID r; Business_Unit := Business_Unit r;
     Annual_Spend := x; Ramp_Time_Months := Ramp_Time_Months r;
     Partnership_Score := Partnership_Score r;
     Innovation_Score := Innovation_Score r;
     Supply_Risk_Score := Supply_Risk_Score r;
     Sole_Source_Ratio := Sole_Source_Ratio r;
     Single_Source_Ratio := Single_Source_Ratio r;
     Multi_Source_Ratio := Multi_Source_Ratio r |}.

Definition with_Ramp_Time_Months (r : Supplier) (x : Q) : Supplier :=
  {| Supplier_ID := Supplier_ID r; Business_Unit := Business_Unit r;
     Annual_Spend := Annual_Spend r; Ramp_Time_Months := x;
     Partnership_Score := Partnership_Score r;
     Innovation_Score := Innovation_Score r;
     Supply_Risk_Score := Supply_Risk_Score r;
     Sole_Source_Ratio := Sole_Source_Ratio r;
     Single_Source_Ratio := Single_Source_Ratio r;
     Multi_Source_Ratio := Multi_Source_Ratio r |}.

Definition with_Supply_Risk_Score (r : Supplier) (x : Q) : Supplier :=
  {| Supplier_ID := Supplier_ID r; Business_Unit := Business_Unit r;
     Annual_Spend := Annual_Spend r; Ramp_Time_Months := Ramp_Time_Months r;
     Partnership_Score := Partnership_Score r;
     Innovation_Score := Innovation_Score r;
     Supply_Risk_Score := x;
     Sole_Source_Ratio := Sole_Source_Ratio r;
     Single_Source_Ratio := Single_Source_Ratio r;
     Multi_Source_Ratio := Multi_Source_Ratio r |}.

(** ** The transforms inside the score *)

Definition ramp_transform (months : Q) : Q := 1 - 1 / (1 + (months / 12) ^ 2).

Definition spend_transform (spend : Q) : Q := 1 - 1 / (1 + spend / 100).

(** The part of the component sum that is linear in the record. *)
Definition linear_part (w : Weights) (r : Supplier) : Q :=
  W2 w * Sole_Source_Ratio r + W3 w * Single_Source_Ratio r
  + W4 w * Multi_Source_Ratio r
  + W7 w * (Partnership_Score r * (1 # 3))
  + W8 w * (Innovation_Score r * (1 # 3))
  + W9 w * ((4 - Supply_Risk_Score r) * (1 # 3)).

(** ** Tables and helpers of the further statements *)

(** A row of a business unit that has no weights. *)
Definition unknown_unit_row : Supplier :=
  {| Supplier_ID := "U"; Business_Unit := "Business_Unit_C";
     Annual_Spend := 10; Ramp_Time_Months := 6;
     Partnership_Score := 2; Innovation_Score := 2; Supply_Risk_Score := 2;
     Sole_Source_Ratio := 0; Single_Source_Ratio := 0; Multi_Source_Ratio := 1 |}.

(** A model with the built-in configuration holding a given table. *)
Definition model_with (data : list Supplier) : SupplierScoringModel :=
  {| suppliers_data := Some data;
     bu_weights := default_bu_weights;
     segmentation_thresholds := default_thresholds |}.

(** The score of a row under the weights of its own business unit (0
    when the calculator raises). *)
Definition score_of (self : SupplierScoringModel) (d : Supplier) : Q :=
  match calculate_supplier_score self d (Business_Unit d) with
  | Ok s => s
  | Raise _ => 0
  end.

(** The classified row of [d] in a table whose score column is [col]. *)
Definition labelled (self : SupplierScoringModel) (col : list Q)
    (d : Supplier) : ScoredSupplier :=
  {| supplier := d;
     Score := score_of self d;
     Classification :=
       classification_of (segmentation_thresholds self)
         (percentile col (score_of self d)) |}.

(** Two tables, row by row, the keys of the second being those of the
    first times [k]. *)
Definition scaled_rows {A : Type} (k : Q) (key : A -> Q)
    : list A -> list A -> Prop :=
  Forall2 (fun a a' => key a' == k * key a).

(** A classified row with its annual spend multiplied by [k]. *)
Definition scale_spend (k : Q) (row : ScoredSupplier) : ScoredSupplier :=
  {| supplier := with_Annual_Spend (supplier row)
                   (k * Annual_Spend (supplier row));
     Score := Score row;
     Classification := Classification row |}.

(** A score column without ties: no value occurs twice. *)
Definition no_ties (col : list Q) : Prop :=
  forall s, (length (List.filter (fun x => Qeq_bool x s) col) <= 1)%nat.

(** The inclusive rank of a score: how many scores of the column are at
    most that score. *)
Definition rank (col : list Q) (s : Q) : nat :=
  length (List.filter (fun x => Qle_bool x s) col).

(** * The error monad *)

Lemma bind_Ok {A B : Type} (a : A) (k : A -> result B) : (Ok a ≫= k) = k a.
Proof. reflexivity. Qed.

Lemma bind_Raise {A B : Type} (e : Exception) (k : A -> result B) :
  (Raise e ≫= k) = Raise e.
Proof. reflexivity. Qed.

Lemma bind_Ok_inv {A B : Type} (c : result A) (k : A -> result B) (b : B) :
  (c ≫= k) = Ok b -> exists a, c = Ok a /\ k a = Ok b.
Proof. destruct c as [a|e]; [eauto | discriminate]. Qed.

Ltac bind_steps := repeat (rewrite ?bind_Ok, ?bind_Raise; cbv beta).

(** * Properties of the score *)

Section Score.

Lemma py_div_ok (a b : Q) : ~ b == 0 -> py_div a b = Ok (a / b).
Proof.
  intros Hb. unfold py_div.
  destruct (Qeq_bool b 0) eqn:E; [|reflexivity].
  apply Qeq_bool_iff in E. contradiction.
Qed.

Lemma py_div_zero (a b : Q) : b == 0 -> py_div a b = Raise ZeroDivisionError.
Proof.
  intros Hb. unfold py_div. apply Qeq_bool_iff in Hb. now rewrite Hb.
Qed.

Lemma Qsquare_nonneg (x : Q) : 0 <= x ^ 2.
Proof. simpl. nra. Qed.

Lemma ramp_divisor_pos (x : Q) : 0 < 1 + (x / 12) ^ 2.
Proof. pose proof (Qsquare_nonneg (x / 12)). lra. Qed.

Lemma ramp_divisor_nonzero (x : Q) : ~ 1 + (x / 12) ^ 2 == 0.
Proof.
  intros H. pose proof (ramp_divisor_pos x) as Hp.
  rewrite H in Hp. now apply Qlt_irrefl in Hp.
Qed.

Lemma spend_divisor_zero (x : Q) : 1 + x / 100 == 0 <-> x == -100.
Proof.
  assert (Hd : x / 100 == x * (1 # 100)) by reflexivity.
  split; intros H; lra.
Qed.

Lemma unit_inverse_bounds (d : Q) : 1 <= d -> 0 <= 1 - 1 / d <= 1.
Proof.
  intros Hd.
  assert (H0 : 0 < 1 / d) by (apply Qlt_shift_div_l; lra).
  assert (H1 : 1 / d <= 1) by (apply Qle_shift_div_r; lra).
  lra.
Qed.

Lemma weighted_share_bounds (k x : Q) :
  0 <= k -> 0 <= x <= 1 -> 0 <= k * x <= k.
Proof. intros Hk Hx. nra. Qed.

Lemma scaled_bounds (t k : Q) :
  0 <= t <= 100 -> 0 <= k <= 100 -> 0 <= t * k * (1 # 100) <= 100.
Proof. intros Ht Hk. nra. Qed.

(** With a non-negative scale factor the closed form stays in [0, 100]. *)
Lemma score_formula_bounds (w : Weights) (r : Supplier) :
  record_in_range r -> weights_in_range w -> 0 <= W0 w ->
  0 <= score_formula w r <= 100.
Proof.
  intros (Hsole & Hsingle & Hmulti & Hramp & Hspend & Hp & Hi & Hk)
         (H2 & H3 & H4 & H5 & H6 & H7 & H8 & H9 & Hsum & H0) H0'.
  unfold score_formula.
  assert (Hu := unit_inverse_bounds (1 + (Ramp_Time_Months r / 12) ^ 2)).
  assert (Hv := unit_inverse_bounds (1 + Annual_Spend r / 100)).
  set (u := 1 - 1 / (1 + (Ramp_Time_Months r / 12) ^ 2)) in *.
  set (v := 1 - 1 / (1 + Annual_Spend r / 100)) in *.
  assert (Hu' : 0 <= u <= 1).
  { apply Hu. pose proof (Qsquare_nonneg (Ramp_Time_Months r / 12)). lra. }
  assert (Hv' : 0 <= v <= 1).
  { apply Hv. assert (Annual_Spend r / 100 == Annual_Spend r * (1 # 100))
      by reflexivity. lra. }
  clearbody u v. clear Hu Hv.
  set (p := Partnership_Score r * (1 # 3)).
  set (i := Innovation_Score r * (1 # 3)).
  set (k := (4 - Supply_Risk_Score r) * (1 # 3)).
  assert (Hp' : 0 <= p <= 1) by (unfold p; lra).
  assert (Hi' : 0 <= i <= 1) by (unfold i; lra).
  assert (Hk' : 0 <= k <= 1) by (unfold k; lra).
  pose proof (weighted_share_bounds _ _ H2 Hsole).
  pose proof (weighted_share_bounds _ _ H3 Hsingle).
  pose proof (weighted_share_bounds _ _ H4 Hmulti).
  pose proof (weighted_share_bounds _ _ H5 Hu').
  pose proof (weighted_share_bounds _ _ H6 Hv').
  pose proof (weighted_share_bounds _ _ H7 Hp').
  pose proof (weighted_share_bounds _ _ H8 Hi').
  pose proof (weighted_share_bounds _ _ H9 Hk').
  set (t := W2 w * Sole_Source_Ratio r + W3 w * Single_Source_Ratio r
            + W4 w * Multi_Source_Ratio r + W5 w * u + W6 w * v
            + W7 w * p + W8 w * i + W9 w * k).
  assert (Ht : 0 <= t <= 100) by (unfold t; lra).
  assert (Heq :
    ((W2 w * Sole_Source_Ratio r + W3 w * Single_Source_Ratio r
      + W4 w * Multi_Source_Ratio r) / 100 + W5 w * u / 100 + W6 w * v / 100
     + W7 w * (Partnership_Score r / 3) / 100
     + W8 w * (Innovation_Score r / 3) / 100
     + W9 w * ((4 - Supply_Risk_Score r) / 3) / 100) * (W0 w / 100) * 100
    == t * W0 w * (1 # 100)) by (unfold t, p, i, k; field).
  rewrite Heq. apply scaled_bounds; [exact Ht | lra].
Qed.

Context (self : SupplierScoringModel) (row : Supplier) (bu : string).

Lemma calculate_supplier_score_unknown_bu :
  bu_weights self !! bu = None ->
  calculate_supplier_score self row bu = Raise (KeyError bu).
Proof. intros H. unfold calculate_supplier_score. now rewrite H. Qed.

Lemma calculate_supplier_score_zero_division (w : Weights) :
  bu_weights self !! bu = Some w ->
  Annual_Spend row == -100 ->
  calculate_supplier_score self row bu = Raise ZeroDivisionError.
Proof.
  intros Hw Hs. unfold calculate_supplier_score. rewrite Hw. bind_steps.
  rewrite (py_div_ok 1 (1 + _ ^ 2)) by apply ramp_divisor_nonzero. bind_steps.
  rewrite py_div_zero by (now apply spend_divisor_zero). reflexivity.
Qed.

Lemma calculate_supplier_score_returns (w : Weights) :
  bu_weights self !! bu = Some w ->
  ~ Annual_Spend row == -100 ->
  exists s, calculate_supplier_score self row bu = Ok s.
Proof.
  intros Hw Hs. unfold calculate_supplier_score. rewrite Hw. bind_steps.
  rewrite (py_div_ok 1 (1 + _ ^ 2)) by apply ramp_divisor_nonzero. bind_steps.
  rewrite py_div_ok by (now rewrite spend_divisor_zero).
  bind_steps. eauto.
Qed.

Lemma calculate_supplier_score_inv (s : Q) :
  calculate_supplier_score self row bu = Ok s ->
  exists w, bu_weights self !! bu = Some w /\
            ~ Annual_Spend row == -100 /\
            s == score_formula w row.
Proof.
  unfold calculate_supplier_score.
  destruct (bu_weights self !! bu) as [w|] eqn:Hw; bind_steps; [|discriminate].
  rewrite (py_div_ok 1 (1 + _ ^ 2)) by apply ramp_divisor_nonzero. bind_steps.
  unfold py_div.
  destruct (Qeq_bool (1 + Annual_Spend row / 100) 0) eqn:E; bind_steps;
    [discriminate|].
  intros [= <-]. exists w. split; [reflexivity|].
  assert (Hs : ~ 1 + Annual_Spend row / 100 == 0).
  { intros H. apply Qeq_bool_iff in H. congruence. }
  rewrite spend_divisor_zero in Hs. split; [exact Hs|].
  unfold score_formula. field.
  split; [lra|].
  pose proof (Qsquare_nonneg (Ramp_Time_Months row)). simpl in *. nra.
Qed.

End Score.

(** C1: for a record whose business unit has a weight configuration, the
    score calculator returns the closed-form score: the six components
    summed, multiplied by scaleFactor/100 and then by 100.  The closed
    form has no value at a spend of -100, where its spend component
    divides by zero (and the calculator raises). *)
Theorem calculate_supplier_score_closed_form
    (self : SupplierScoringModel) (row : Supplier) (bu : string) (w : Weights) :
  bu_weights self !! bu = Some w ->
  ~ Annual_Spend row == -100 ->
  exists s, calculate_supplier_score self row bu = Ok s /\
            s == score_formula w row.
Proof.
  intros Hw Hs.
  destruct (calculate_supplier_score_returns self row bu w Hw Hs) as [s Hcalc].
  exists s. split; [exact Hcalc|].
  destruct (calculate_supplier_score_inv self row bu s Hcalc)
    as (w' & Hw' & _ & Heq).
  rewrite Hw in Hw'. injection Hw' as <-. exact Heq.
Qed.

Lemma calculate_supplier_score_closed_form_witness :
  exists s, calculate_supplier_score init supplier_X "Business_Unit_A" = Ok s /\
            s == score_formula Business_Unit_A_weights supplier_X.
Proof.
  apply calculate_supplier_score_closed_form.
  - reflexivity.
  - simpl. lra.
Defined.

(** C9: with the weights W2=30, W3=20, W4=1, W5=25, W6=10, W7=25, W8=5,
    W9=5 and scale factor 100 (those of Business_Unit_A), supplier X scores
    strictly higher than supplier Y. *)
Theorem supplier_X_scores_above_supplier_Y :
  bu_weights init !! "Business_Unit_A"%string =
    Some {| W0 := 100; W2 := 30; W3 := 20; W4 := 1; W5 := 25;
            W6 := 10; W7 := 25; W8 := 5; W9 := 5 |} /\
  exists x y,
    calculate_supplier_score init supplier_X "Business_Unit_A" = Ok x /\
    calculate_supplier_score init supplier_Y "Business_Unit_A" = Ok y /\
    y < x.
Proof.
  split; [reflexivity|].
  eexists. eexists.
  split; [vm_compute; reflexivity|].
  split; [vm_compute; reflexivity|].
  reflexivity.
Qed.

(** C2: for a record with ratios in [0,1], positive ramp time,
    non-negative spend and ratings in 1..3, and a weight configuration
    whose weights W2..W9 are non-negative and sum to at most 100 with a
    scale factor of at most 100, the calculator returns a score between 0
    and 100.  The scale factor is a weight of the configuration and, like
    every weight, non-negative. *)
Theorem calculate_supplier_score_range
    (self : SupplierScoringModel) (row : Supplier) (bu : string) (w : Weights) :
  bu_weights self !! bu = Some w ->
  record_in_range row -> weights_in_range w -> 0 <= W0 w ->
  exists s, calculate_supplier_score self row bu = Ok s /\ 0 <= s <= 100.
Proof.
  intros Hw Hrow Hwr H0.
  assert (Hs : ~ Annual_Spend row == -100).
  { destruct Hrow as (_ & _ & _ & _ & Hspend & _). lra. }
  destruct (calculate_supplier_score_returns self row bu w Hw Hs) as [s Hcalc].
  exists s. split; [exact Hcalc|].
  destruct (calculate_supplier_score_inv self row bu s Hcalc)
    as (w' & Hw' & _ & Heq).
  rewrite Hw in Hw'. injection Hw' as <-.
  rewrite Heq. now apply score_formula_bounds.
Qed.

Lemma calculate_supplier_score_range_witness :
  exists s, calculate_supplier_score init supplier_Y "Business_Unit_B" = Ok s /\
            0 <= s <= 100.
Proof.
  apply (calculate_supplier_score_range init supplier_Y "Business_Unit_B"
           Business_Unit_B_weights).
  - reflexivity.
  - unfold record_in_range; simpl. repeat split; lra.
  - unfold weights_in_range; simpl. repeat split; lra.
  - simpl. lra.
Defined.

(** C6, as stated, fails: a row with a negative spend and a partnership
    rating of 7 is scored like any other row, and nothing is raised. *)
Lemma malformed_row_is_scored :
  Annual_Spend malformed_row < 0 /\
  3 < Partnership_Score malformed_row /\
  (exists s, calculate_supplier_score init malformed_row "Business_Unit_A" = Ok s) /\
  (forall e, calculate_supplier_score init malformed_row "Business_Unit_A"
             <> Raise e).
Proof.
  split; [reflexivity|]. split; [reflexivity|].
  split; [eexists; vm_compute; reflexivity|].
  intros e. vm_compute. discriminate.
Qed.

(** C6, amended: the score calculator does not validate the record.  A
    record with finite values of moderate magnitude that contains a
    negative input or a rating outside 1..3 (its business unit having
    weights, its spend not being -100) is not rejected: the calculator
    returns the closed-form score of the values exactly as they are,
    neither coerced nor clamped. *)
Theorem malformed_record_scored_as_is
    (self : SupplierScoringModel) (row : Supplier) (bu : string) (w : Weights) :
  bu_weights self !! bu = Some w ->
  malformed row ->
  within_float_range row ->
  ~ Annual_Spend row == -100 ->
  exists s, calculate_supplier_score self row bu = Ok s /\
            s == score_formula w row.
Proof.
  intros Hw _ _ Hs.
  destruct (calculate_supplier_score_returns self row bu w Hw Hs) as [s Hcalc].
  exists s. split; [exact Hcalc|].
  destruct (calculate_supplier_score_inv self row bu s Hcalc)
    as (w' & Hw' & _ & Heq).
  rewrite Hw in Hw'. injection Hw' as <-. exact Heq.
Qed.

Lemma malformed_record_scored_as_is_witness :
  (malformed malformed_row /\ within_float_range malformed_row) /\
  exists s, calculate_supplier_score init malformed_row "Business_Unit_A" = Ok s /\
            s == score_formula Business_Unit_A_weights malformed_row.
Proof.
  assert (Hm : malformed malformed_row) by (left; reflexivity).
  assert (Hr : within_float_range malformed_row)
    by (unfold within_float_range, moderate; repeat split;
        vm_compute; discriminate).
  split; [exact (conj Hm Hr)|].
  apply malformed_record_scored_as_is.
  - reflexivity.
  - exact Hm.
  - exact Hr.
  - simpl. lra.
Defined.

(** * Properties of the classification *)

Section Percentile.

Lemma len_nil {A : Type} : len (@nil A) == 0.
Proof. reflexivity. Qed.

Lemma len_cons {A : Type} (x : A) (l : list A) : len (x :: l) == 1 + len l.
Proof.
  unfold len. simpl length. rewrite Nat2Z.inj_succ. unfold Z.succ.
  rewrite inject_Z_plus. ring.
Qed.

Lemma len_nonneg {A : Type} (l : list A) : 0 <= len l.
Proof.
  induction l as [|x l IH]; [rewrite len_nil; lra|rewrite len_cons; lra].
Qed.

Lemma len_pos {A : Type} (l : list A) : l <> [] -> 0 < len l.
Proof.
  destruct l as [|x l]; [congruence|]. intros _.
  rewrite len_cons. pose proof (len_nonneg l). lra.
Qed.

Lemma Qsum_bools {A : Type} (f : A -> bool) (l : list A) :
  Qsum (map bool_to_Q (map f l)) == len (List.filter f l).
Proof.
  induction l as [|x l IH]; [reflexivity|].
  simpl. destruct (f x); simpl.
  - rewrite len_cons, IH. reflexivity.
  - rewrite IH. ring.
Qed.

(** The percentile of the code is the inclusive rank of the specification. *)
Lemma percentile_inclusive_rank (col : list Q) (s : Q) :
  percentile col s == inclusive_rank col s.
Proof.
  unfold percentile, inclusive_rank, mean.
  rewrite Qsum_bools. unfold len. now rewrite length_map.
Qed.

Lemma count_le_mono (col : list Q) (s1 s2 : Q) :
  s1 <= s2 ->
  len (List.filter (fun x => Qle_bool x s1) col)
  <= len (List.filter (fun x => Qle_bool x s2) col).
Proof.
  intros H12. induction col as [|x col IH]; [apply Qle_refl|].
  simpl. destruct (Qle_bool x s1) eqn:E1.
  - assert (E2 : Qle_bool x s2 = true).
    { apply Qle_bool_iff. apply Qle_bool_iff in E1. lra. }
    rewrite E2, !len_cons. lra.
  - destruct (Qle_bool x s2); [rewrite len_cons|]; lra.
Qed.

Lemma percentile_mono (col : list Q) (s1 s2 : Q) :
  s1 <= s2 -> percentile col s1 <= percentile col s2.
Proof.
  intros H12. rewrite !percentile_inclusive_rank. unfold inclusive_rank.
  pose proof (count_le_mono col s1 s2 H12) as Hc.
  pose proof (len_nonneg col) as Hn.
  apply Qmult_le_compat_r; [|lra].
  unfold Qdiv. apply Qmult_le_compat_r; [exact Hc|].
  now apply Qinv_le_0_compat.
Qed.


Lemma filter_all {A : Type} (f : A -> bool) (l : list A) :
  (forall x, In x l -> f x = true) -> List.filter f l = l.
Proof.
  induction l as [|x l IH]; [reflexivity|]. intros H. simpl.
  rewrite (H x) by now left. f_equal. apply IH. intros y Hy. apply H. now right.
Qed.

(** A score that no score of the column exceeds is at the 100th percentile. *)
Lemma percentile_of_maximum (col : list Q) (s : Q) :
  col <> [] -> (forall x, In x col -> x <= s) -> percentile col s == 100.
Proof.
  intros Hne Hmax. rewrite percentile_inclusive_rank. unfold inclusive_rank.
  rewrite filter_all by (intros x Hx; apply Qle_bool_iff; auto).
  pose proof (len_pos col Hne). field. lra.
Qed.

Lemma classification_of_mono (th : Thresholds) (p1 p2 : Q) :
  p1 <= p2 ->
  (segment_rank (classification_of th p1)
   <= segment_rank (classification_of th p2))%nat.
Proof.
  intros H12. unfold classification_of.
  assert (Hup : forall t, Qle_bool t p1 = true -> Qle_bool t p2 = true).
  { intros t Ht. apply Qle_bool_iff. apply Qle_bool_iff in Ht. lra. }
  destruct (Qle_bool (th_Strategic th) p1) eqn:S1.
  { now rewrite (Hup _ S1). }
  destruct (Qle_bool (th_Strategic th) p2); [simpl; destruct
    (Qle_bool (th_Critical th) p1), (Qle_bool (th_Operational th) p1);
    simpl; lia|].
  destruct (Qle_bool (th_Critical th) p1) eqn:C1.
  { now rewrite (Hup _ C1). }
  destruct (Qle_bool (th_Critical th) p2); [simpl; destruct
    (Qle_bool (th_Operational th) p1); simpl; lia|].
  destruct (Qle_bool (th_Operational th) p1) eqn:O1.
  { now rewrite (Hup _ O1). }
  destruct (Qle_bool (th_Operational th) p2); simpl; lia.
Qed.

Lemma segment_rank_inj (c1 c2 : Segment) :
  segment_rank c1 = segment_rank c2 -> c1 = c2.
Proof. destruct c1, c2; simpl; congruence. Qed.

Lemma classification_of_tie (th : Thresholds) (p1 p2 : Q) :
  p1 == p2 -> classification_of th p1 = classification_of th p2.
Proof.
  intros H. apply segment_rank_inj. apply Nat.le_antisymm;
    apply classification_of_mono; lra.
Qed.

Lemma classification_of_top (th : Thresholds) (p : Q) :
  th_Strategic th <= p -> classification_of th p = Strategic.
Proof.
  intros H. unfold classification_of.
  apply Qle_bool_iff in H. now rewrite H.
Qed.

End Percentile.

Section Classify.

Lemma for_each_total {A B : Type} (f : A -> result B) (xs : list A) :
  Forall (fun x => exists y, f x = Ok y) xs ->
  exists ys, for_each f xs = Ok ys.
Proof.
  induction 1 as [|x xs [y Hy] _ [ys Hys]]; simpl.
  - eauto.
  - rewrite Hy. bind_steps. rewrite Hys. bind_steps. eauto.
Qed.

Lemma for_each_inv {A B : Type} (f : A -> result B) (xs : list A) (ys : list B) :
  for_each f xs = Ok ys -> Forall2 (fun x y => f x = Ok y) xs ys.
Proof.
  revert ys. induction xs as [|x xs IH]; simpl; intros ys H.
  - injection H as <-. constructor.
  - apply bind_Ok_inv in H as (y & Hy & H).
    apply bind_Ok_inv in H as (ys' & Hys & H).
    injection H as <-. constructor; auto.
Qed.

Lemma attach_columns_supplier (g : Q -> Segment) (data : list Supplier)
    (scores : list Q) :
  length data = length scores ->
  map supplier (attach_columns data scores (map g scores)) = data.
Proof.
  revert scores. induction data as [|d data IH]; intros [|s scores] H;
    simpl in *; try reflexivity; try discriminate.
  f_equal. apply IH. congruence.
Qed.

Lemma attach_columns_Score (g : Q -> Segment) (data : list Supplier)
    (scores : list Q) :
  length data = length scores ->
  map Score (attach_columns data scores (map g scores)) = scores.
Proof.
  revert scores. induction data as [|d data IH]; intros [|s scores] H;
    simpl in *; try reflexivity; try discriminate.
  f_equal. apply IH. congruence.
Qed.

Lemma attach_columns_Classification (g : Q -> Segment) (data : list Supplier)
    (scores : list Q) (a : ScoredSupplier) :
  In a (attach_columns data scores (map g scores)) ->
  Classification a = g (Score a).
Proof.
  revert scores. induction data as [|d data IH]; intros [|s scores];
    simpl; try tauto.
  intros [<-|H]; [reflexivity|eauto].
Qed.

Lemma attach_columns_scored (self : SupplierScoringModel) (g : Q -> Segment)
    (data : list Supplier) (scores : list Q) :
  Forall2 (fun d s => calculate_supplier_score self d (Business_Unit d) = Ok s)
          data scores ->
  Forall (fun a => calculate_supplier_score self (supplier a)
                     (Business_Unit (supplier a)) = Ok (Score a))
         (attach_columns data scores (map g scores)).
Proof.
  induction 1; simpl; constructor; auto.
Qed.

Lemma classify_suppliers_inv (self : SupplierScoringModel)
    (data : list Supplier) (out : list ScoredSupplier) :
  suppliers_data self = Some data ->
  classify_suppliers self = Ok out ->
  classified self data out.
Proof.
  intros Hdata. unfold classify_suppliers. rewrite Hdata. intros H.
  apply bind_Ok_inv in H as (scores & Hscores & H).
  injection H as <-. apply for_each_inv in Hscores.
  assert (Hlen : length data = length scores)
    by (eapply Forall2_length; eauto).
  set (g := fun score =>
              classification_of (segmentation_thresholds self)
                (percentile scores score)).
  split.
  - now apply attach_columns_supplier.
  - now apply attach_columns_scored.
  - intros a Ha. rewrite (attach_columns_Score g) by exact Hlen.
    exact (attach_columns_Classification g data scores a Ha).
Qed.

Lemma classify_suppliers_returns (self : SupplierScoringModel)
    (data : list Supplier) :
  suppliers_data self = Some data ->
  Forall (scorable self) data ->
  exists out, classify_suppliers self = Ok out.
Proof.
  intros Hdata Hall. unfold classify_suppliers. rewrite Hdata.
  destruct (for_each_total
              (fun d => calculate_supplier_score self d (Business_Unit d)) data)
    as [scores Hscores].
  - eapply List.Forall_impl; [|exact Hall].
    intros d [[w Hw] Hs].
    eapply calculate_supplier_score_returns; eauto.
  - rewrite Hscores. bind_steps. eauto.
Qed.

Lemma classify_suppliers_no_data (self : SupplierScoringModel) :
  suppliers_data self = None ->
  classify_suppliers self =
  Raise (ValueError
    "No supplier data available. Please generate or load data first.").
Proof. intros H. unfold classify_suppliers. now rewrite H. Qed.

Lemma In_Score {out : list ScoredSupplier} {a : ScoredSupplier} :
  In a out -> In (Score a) (map Score out).
Proof. apply in_map. Qed.

Lemma exists_top_score (out : list ScoredSupplier) :
  out <> [] ->
  exists a, In a out /\ forall b, In b out -> Score b <= Score a.
Proof.
  induction out as [|x out IH]; [congruence|]. intros _.
  destruct out as [|y out'].
  - exists x. split; [now left|]. intros b [<-|[]]. apply Qle_refl.
  - destruct IH as (m & Hm & Hmax); [discriminate|].
    destruct (Qlt_le_dec (Score m) (Score x)) as [Hlt|Hle].
    + exists x. split; [now left|].
      intros b [<-|Hb]; [apply Qle_refl|]. specialize (Hmax b Hb). lra.
    + exists m. split; [now right|].
      intros b [<-|Hb]; [exact Hle|auto].
Qed.

End Classify.

Lemma two_row_model_scorable :
  Forall (scorable two_row_model) [supplier_X; supplier_Y].
Proof.
  repeat constructor; try (eexists; reflexivity); simpl; lra.
Defined.





(** C10: with the built-in thresholds (Strategic at 95) a non-empty table
    always gets a Strategic row: every row holding the maximum score is at
    percentile 100 and is labelled Strategic, and such a row exists. *)
Theorem classify_suppliers_has_strategic
    (self : SupplierScoringModel) (data : list Supplier) :
  suppliers_data self = Some data ->
  data <> [] ->
  segmentation_thresholds self = default_thresholds ->
  Forall (scorable self) data ->
  exists out,
    classify_suppliers self = Ok out /\
    (forall a, In a out ->
       (forall b, In b out -> Score b <= Score a) ->
       percentile (map Score out) (Score a) == 100 /\
       Classification a = Strategic) /\
    (exists a, In a out /\ Classification a = Strategic).
Proof.
  intros Hdata Hne Hth Hall.
  destruct (classify_suppliers_returns self data Hdata Hall) as [out Hout].
  destruct (classify_suppliers_inv self data out Hdata Hout) as [Hrows _ Hlab].
  exists out. split; [exact Hout|].
  assert (Htop : forall a, In a out ->
            (forall b, In b out -> Score b <= Score a) ->
            percentile (map Score out) (Score a) == 100 /\
            Classification a = Strategic).
  { intros a Ha Hmax.
    assert (Hp : percentile (map Score out) (Score a) == 100).
    { apply percentile_of_maximum.
      - destruct out; [destruct Ha|discriminate].
      - intros x Hx. apply in_map_iff in Hx as (b & <- & Hb). now apply Hmax. }
    split; [exact Hp|].
    rewrite (Hlab a Ha), Hth. apply classification_of_top.
    rewrite Hp. simpl. lra. }
  split; [exact Htop|].
  destruct (exists_top_score out) as (m & Hm & Hmax).
  - intros ->. simpl in Hrows. congruence.
  - exists m. split; [exact Hm|]. now apply Htop.
Qed.

Lemma classify_suppliers_has_strategic_witness :
  exists out,
    classify_suppliers two_row_model = Ok out /\
    exists a, In a out /\ Classification a = Strategic.
Proof.
  destruct (classify_suppliers_has_strategic two_row_model
              [supplier_X; supplier_Y] eq_refl ltac:(discriminate) eq_refl
              two_row_model_scorable)
    as (out & Hout & _ & Hex).
  exists out. split; [exact Hout|exact Hex].
Defined.

(** C5, as stated, fails: classifying a table of zero rows raises nothing
    and returns the empty table. *)
Lemma classify_suppliers_zero_rows_no_error :
  suppliers_data zero_row_model = Some [] /\
  classify_suppliers zero_row_model = Ok [] /\
  (forall e, classify_suppliers zero_row_model <> Raise e).
Proof.
  split; [reflexivity|]. split; [reflexivity|]. intros e. discriminate.
Qed.

(** C5, amended: on a table of zero rows [classify_suppliers] returns the
    empty table without raising; it raises (a [ValueError]) only when no
    table has been loaded at all. *)
Theorem classify_suppliers_zero_rows
    (weights : gmap string Weights) (th : Thresholds) :
  classify_suppliers
    {| suppliers_data := Some []; bu_weights := weights;
       segmentation_thresholds := th |} = Ok [] /\
  classify_suppliers
    {| suppliers_data := None; bu_weights := weights;
       segmentation_thresholds := th |}
  = Raise (ValueError
      "No supplier data available. Please generate or load data first.").
Proof. split; reflexivity. Qed.

(** * Properties of the Pareto count *)

Section Sorting.

Context {A : Type} (key : A -> Q).

Lemma insert_desc_Forall (P : A -> Prop) (x : A) (l : list A) :
  P x -> Forall P l -> Forall P (insert_desc key x l).
Proof.
  intros Hx. induction 1 as [|y l Hy Hl IH]; simpl.
  - now constructor.
  - destruct (Qle_bool (key y) (key x)); repeat constructor; auto.
Qed.

Lemma insert_desc_descending (x : A) (l : list A) :
  descending key l -> descending key (insert_desc key x l).
Proof.
  induction 1 as [|y l Hl IH Hy]; simpl.
  - repeat constructor.
  - destruct (Qle_bool (key y) (key x)) eqn:E.
    + apply Qle_bool_iff in E. constructor; [now constructor|].
      constructor; [exact E|].
      eapply List.Forall_impl; [|exact Hy]. intros b Hb. cbv beta in *. lra.
    + constructor; [exact IH|].
      apply insert_desc_Forall; [|exact Hy].
      destruct (Qlt_le_dec (key x) (key y)) as [Hlt|Hle]; [lra|].
      apply Qle_bool_iff in Hle. congruence.
Qed.

Lemma sort_values_desc_descending (l : list A) :
  descending key (sort_values_desc key l).
Proof.
  induction l as [|x l IH]; simpl.
  - constructor.
  - now apply insert_desc_descending.
Qed.

Lemma sort_values_desc_Forall (P : A -> Prop) (l : list A) :
  Forall P l -> Forall P (sort_values_desc key l).
Proof.
  induction 1; simpl; [constructor|now apply insert_desc_Forall].
Qed.

Lemma Qsum_insert_desc (x : A) (l : list A) :
  Qsum (map key (insert_desc key x l)) == key x + Qsum (map key l).
Proof.
  induction l as [|y l IH]; simpl; [reflexivity|].
  destruct (Qle_bool (key y) (key x)); simpl; [reflexivity|].
  rewrite IH. ring.
Qed.

Lemma Qsum_sort_values_desc (l : list A) :
  Qsum (map key (sort_values_desc key l)) == Qsum (map key l).
Proof.
  induction l as [|x l IH]; simpl; [reflexivity|].
  now rewrite Qsum_insert_desc, IH.
Qed.

Lemma length_insert_desc (x : A) (l : list A) :
  length (insert_desc key x l) = S (length l).
Proof.
  induction l as [|y l IH]; simpl; [reflexivity|].
  destruct (Qle_bool (key y) (key x)); simpl; congruence.
Qed.

Lemma insert_zero (z : A) (l : list A) :
  key z == 0 -> descending key l -> zero_inserted key z l (insert_desc key z l).
Proof.
  intros Hz. induction 1 as [|y l Hl IH Hy]; simpl.
  - apply (zero_inserted_at key z [] []); constructor.
  - destruct (Qle_bool (key y) (key z)) eqn:E.
    + apply Qle_bool_iff in E.
      apply (zero_inserted_at key z [] (y :: l)); [constructor|].
      constructor; [lra|].
      eapply List.Forall_impl; [|exact Hy]. intros b Hb. cbv beta in *. lra.
    + destruct IH as [front back Hfront Hback].
      apply (zero_inserted_at key z (y :: front) back); [|exact Hback].
      constructor; [|exact Hfront].
      destruct (Qlt_le_dec (key y) 0) as [Hlt|Hle]; [|exact Hle].
      assert (Qle_bool (key y) (key z) = true)
        by (apply Qle_bool_iff; lra).
      congruence.
Qed.

Lemma insert_desc_zero_inserted (x z : A) (l l' : list A) :
  key z == 0 ->
  zero_inserted key z l l' ->
  zero_inserted key z (insert_desc key x l) (insert_desc key x l').
Proof.
  intros Hz [front back Hfront Hback].
  induction Hfront as [|y front Hy Hfront IH]; simpl.
  - destruct (Qle_bool (key z) (key x)) eqn:E.
    + apply Qle_bool_iff in E.
      assert (Hx : insert_desc key x back = x :: back).
      { destruct Hback as [|b back Hb Hback]; simpl; [reflexivity|].
        assert (Qle_bool (key b) (key x) = true)
          by (apply Qle_bool_iff; lra).
        now rewrite H. }
      rewrite Hx.
      apply (zero_inserted_at key z [x] back); [|exact Hback].
      repeat constructor. lra.
    + apply (zero_inserted_at key z [] (insert_desc key x back)); [constructor|].
      apply insert_desc_Forall; [|exact Hback].
      destruct (Qlt_le_dec (key x) 0) as [Hlt|Hle]; [lra|].
      assert (Qle_bool (key z) (key x) = true)
        by (apply Qle_bool_iff; lra).
      congruence.
  - destruct (Qle_bool (key y) (key x)) eqn:E.
    + apply Qle_bool_iff in E.
      apply (zero_inserted_at key z (x :: y :: front) back); [|exact Hback].
      constructor; [lra|]. now constructor.
    + destruct IH as [front' back' Hfront' Hback'].
      apply (zero_inserted_at key z (y :: front') back'); [|exact Hback'].
      now constructor.
Qed.

(** Sorting a table with one more row, of key 0, anywhere in it. *)
Lemma sort_values_desc_zero_row (z : A) (before after : list A) :
  key z == 0 ->
  zero_inserted key z (sort_values_desc key (before ++ after))
                  (sort_values_desc key (before ++ z :: after)).
Proof.
  intros Hz. induction before as [|x before IH]; simpl.
  - apply insert_zero; [exact Hz|apply sort_values_desc_descending].
  - now apply insert_desc_zero_inserted.
Qed.

End Sorting.

Section Counting.

Lemma pareto_80_supplier_count_unfold (data : list ScoredSupplier) :
  pareto_80_supplier_count (spend_concentration_analysis data)
  = count_within_80
      (Qsum (map spend_key (sort_values_desc spend_key data))) 0
      (map spend_key (sort_values_desc spend_key data)).
Proof. reflexivity. Qed.

Lemma count_within_80_cons (total acc x : Q) (col : list Q) :
  count_within_80 total acc (x :: col)
  = ((if within_80 total (acc + x) then 1 else 0)
     + count_within_80 total (acc + x) col)%nat.
Proof.
  unfold count_within_80, count_true, within_80. simpl.
  destruct (np_le _ 80); reflexivity.
Qed.

Lemma within_80_pos (total c : Q) :
  0 < total -> within_80 total c = Qle_bool (c / total * 100) 80.
Proof.
  intros Ht. unfold within_80, np_div.
  destruct (Qeq_bool total 0) eqn:E; [|reflexivity].
  apply Qeq_bool_iff in E. lra.
Qed.

Lemma within_80_proper (total total' c c' : Q) :
  0 < total -> total == total' -> c == c' ->
  within_80 total c = within_80 total' c'.
Proof.
  intros Ht HT Hc. rewrite !within_80_pos by lra. now rewrite HT, Hc.
Qed.

Lemma share_at_least_1 (total c : Q) : 0 < total -> total <= c -> 1 <= c / total.
Proof. intros Ht Hc. apply Qle_shift_div_l; lra. Qed.

Lemma within_80_false (total c : Q) :
  0 < total -> total <= c -> within_80 total c = false.
Proof.
  intros Ht Hc. rewrite within_80_pos by exact Ht.
  destruct (Qle_bool (c / total * 100) 80) eqn:E; [|reflexivity].
  apply Qle_bool_iff in E. pose proof (share_at_least_1 total c Ht Hc). lra.
Qed.

Lemma count_within_80_proper (total total' : Q) (col : list Q) :
  0 < total -> total == total' ->
  forall acc acc', acc == acc' ->
    count_within_80 total acc col = count_within_80 total' acc' col.
Proof.
  intros Ht HT. induction col as [|x col IH]; intros acc acc' Hacc.
  - reflexivity.
  - rewrite !count_within_80_cons.
    rewrite (within_80_proper total total' (acc + x) (acc' + x)) by
      (try assumption; now rewrite Hacc).
    f_equal. apply IH. now rewrite Hacc.
Qed.

Lemma count_within_80_app (total : Q) (front back : list Q) :
  0 < total ->
  forall acc,
    count_within_80 total acc (front ++ back)
    = (count_within_80 total acc front
       + count_within_80 total (acc + Qsum front) back)%nat.
Proof.
  intros Ht. induction front as [|x front IH]; intros acc; simpl app.
  - simpl. apply count_within_80_proper; [exact Ht|reflexivity|ring].
  - rewrite !count_within_80_cons, IH, Nat.add_assoc. f_equal.
    apply count_within_80_proper; [exact Ht|reflexivity|simpl; ring].
Qed.

Lemma Qsum_app (l1 l2 : list Q) : Qsum (l1 ++ l2) == Qsum l1 + Qsum l2.
Proof.
  induction l1 as [|x l1 IH]; simpl; [ring|]. rewrite IH. ring.
Qed.

Lemma Qsum_nonpos (l : list Q) : Forall (fun q => q <= 0) l -> Qsum l <= 0.
Proof. induction 1; simpl; lra. Qed.

Lemma Qsum_nonneg (l : list Q) : Forall (fun q => 0 <= q) l -> 0 <= Qsum l.
Proof. induction 1; simpl; lra. Qed.

(** An entry 0 placed in front of non-positive entries is counted by
    nobody and changes no other cumulative share. *)
Lemma count_within_80_zero_entry (front back : list Q) (z : Q) :
  z == 0 ->
  Forall (fun q => q <= 0) back ->
  0 < Qsum (front ++ back) ->
  count_within_80 (Qsum (front ++ z :: back)) 0 (front ++ z :: back)
  = count_within_80 (Qsum (front ++ back)) 0 (front ++ back).
Proof.
  intros Hz Hback Ht.
  assert (HT : Qsum (front ++ back) == Qsum (front ++ z :: back)).
  { rewrite !Qsum_app. simpl. rewrite Hz. ring. }
  rewrite <- (count_within_80_proper _ _ (front ++ z :: back) Ht HT 0 0)
    by reflexivity.
  rewrite !count_within_80_app by exact Ht.
  f_equal. rewrite count_within_80_cons.
  rewrite within_80_false.
  - simpl. apply count_within_80_proper; [exact Ht|reflexivity|].
    rewrite Hz. ring.
  - exact Ht.
  - rewrite Qsum_app. apply Qsum_nonpos in Hback. lra.
Qed.

End Counting.

(** C8: adding one supplier whose annual spend is 0, at any place of a
    table with positive total spend, leaves the Pareto 80% supplier count
    of [spend_concentration_analysis] unchanged. *)
Theorem pareto_count_zero_spend_supplier
    (before after : list ScoredSupplier) (z : ScoredSupplier) :
  Annual_Spend (supplier z) == 0 ->
  0 < Qsum (map (fun row => Annual_Spend (supplier row)) (before ++ after)) ->
  pareto_80_supplier_count
    (spend_concentration_analysis (before ++ z :: after))
  = pareto_80_supplier_count
      (spend_concentration_analysis (before ++ after)).
Proof.
  intros Hz Ht. rewrite !pareto_80_supplier_count_unfold.
  fold spend_key in Ht. rewrite <- (Qsum_sort_values_desc spend_key) in Ht.
  destruct (sort_values_desc_zero_row spend_key z before after Hz)
    as [front back _ Hback].
  rewrite !map_app in *. simpl map.
  apply count_within_80_zero_entry; [exact Hz| |exact Ht].
  apply Forall_map. exact Hback.
Qed.

Lemma pareto_count_zero_spend_supplier_witness :
  pareto_80_supplier_count
    (spend_concentration_analysis
       ([spend_row 50] ++ spend_row 0 :: [spend_row 30; spend_row 20]))
  = pareto_80_supplier_count
      (spend_concentration_analysis
         ([spend_row 50] ++ [spend_row 30; spend_row 20])).
Proof.
  apply pareto_count_zero_spend_supplier.
  - reflexivity.
  - reflexivity.
Defined.

Section Cutoff.

Context (total : Q) (Htotal : 0 < total).

Lemma share_add (acc x : Q) :
  (acc + x) / total * 100 == acc / total * 100 + x / total * 100.
Proof. field. lra. Qed.

Lemma share_nonneg (x : Q) : 0 <= x -> 0 <= x / total * 100.
Proof.
  intros Hx. assert (0 <= x / total) by (apply Qle_shift_div_l; lra). lra.
Qed.

(** Past the 80% line no cumulative share of non-negative spends is
    counted any more. *)
Lemma count_within_80_past (col : list Q) :
  Forall (fun q => 0 <= q) col ->
  forall acc, 80 < acc / total * 100 -> count_within_80 total acc col = 0%nat.
Proof.
  induction 1 as [|x col Hx _ IH]; intros acc Hacc; [reflexivity|].
  pose proof (share_add acc x). pose proof (share_nonneg x Hx).
  rewrite count_within_80_cons, within_80_pos by exact Htotal.
  destruct (Qle_bool ((acc + x) / total * 100) 80) eqn:E.
  - apply Qle_bool_iff in E. lra.
  - simpl. apply IH. lra.
Qed.

(** While no cumulative share is exactly 80%, the smallest prefix that
    reaches 80% is one row longer than what the code counts. *)
Lemma first_reaching_80_count (col : list Q) :
  Forall (fun q => 0 <= q) col ->
  forall acc,
    acc / total * 100 < 80 ->
    80 <= (acc + Qsum col) / total * 100 ->
    Forall (fun c => ~ c / total * 100 == 80) (cumsum_from acc col) ->
    first_reaching_80 total acc col
    = Some (S (count_within_80 total acc col)).
Proof.
  induction 1 as [|x col Hx Hcol IH]; intros acc Hacc Hreach Hne.
  - simpl in Hreach.
    assert (acc + 0 == acc) as E by ring. rewrite E in Hreach. lra.
  - simpl in Hne. inversion Hne as [|? ? Hne1 Hne2]; subst.
    simpl first_reaching_80.
    rewrite count_within_80_cons, within_80_pos by exact Htotal.
    destruct (Qle_bool 80 ((acc + x) / total * 100)) eqn:E1.
    + apply Qle_bool_iff in E1.
      assert (Hgt : 80 < (acc + x) / total * 100).
      { destruct (Qlt_le_dec 80 ((acc + x) / total * 100)) as [?|Hle];
          [assumption|].
        exfalso. apply Hne1. now apply Qle_antisym. }
      destruct (Qle_bool ((acc + x) / total * 100) 80) eqn:E2.
      * apply Qle_bool_iff in E2. lra.
      * now rewrite (count_within_80_past col Hcol (acc + x) Hgt).
    + assert (Hlt : (acc + x) / total * 100 < 80).
      { destruct (Qlt_le_dec ((acc + x) / total * 100) 80) as [?|Hle];
          [assumption|].
        apply Qle_bool_iff in Hle. congruence. }
      assert (E2 : Qle_bool ((acc + x) / total * 100) 80 = true)
        by (apply Qle_bool_iff; lra).
      rewrite E2, IH; [reflexivity|exact Hlt| |exact Hne2].
      simpl in Hreach.
      assert (acc + x + Qsum col == acc + (x + Qsum col)) as E by ring.
      now rewrite E.
Qed.

End Cutoff.

(** X24: on every table of positive spends in which no cumulative share is
    exactly 80%, the count of [spend_concentration_analysis] is one less
    than the size of the smallest prefix reaching 80%. *)
Lemma pareto_count_one_short (data : list ScoredSupplier) :
  data <> [] ->
  Forall (fun row => 0 < Annual_Spend (supplier row)) data ->
  (let col := map spend_key (sort_values_desc spend_key data) in
   Forall (fun c => ~ c / Qsum col * 100 == 80) (cumsum col)) ->
  pareto_cutoff data
  = Some (S (pareto_80_supplier_count (spend_concentration_analysis data))).
Proof.
  intros Hne Hpos Hexact. rewrite pareto_80_supplier_count_unfold.
  unfold pareto_cutoff. fold spend_key. cbv zeta in Hexact.
  set (col := map spend_key (sort_values_desc spend_key data)) in *.
  assert (Hcol : Forall (fun q => 0 < q) col).
  { unfold col. apply Forall_map.
    now apply sort_values_desc_Forall. }
  assert (Hcol' : Forall (fun q => 0 <= q) col).
  { eapply List.Forall_impl; [|exact Hcol]. intros q Hq. cbv beta in *. lra. }
  assert (Ht : 0 < Qsum col).
  { destruct col as [|x col'] eqn:Ecol.
    - exfalso. apply Hne. apply (f_equal (@length Q)) in Ecol.
      unfold col in Ecol. rewrite length_map in Ecol.
      destruct data as [|d data]; [reflexivity|].
      simpl in Ecol. rewrite length_insert_desc in Ecol. discriminate.
    - inversion Hcol as [|? ? Hx Hrest]; subst.
      inversion Hcol' as [|? ? _ Hrest']; subst.
      apply Qsum_nonneg in Hrest'. simpl. lra. }
  apply first_reaching_80_count; try assumption.
  - assert (0 / Qsum col * 100 == 0) as E by (field; lra). lra.
  - assert ((0 + Qsum col) / Qsum col * 100 == 100) as E by (field; lra). lra.
Qed.

Lemma pareto_count_one_short_witness :
  pareto_cutoff [spend_row 10; spend_row 50; spend_row 40]
  = Some (S (pareto_80_supplier_count
               (spend_concentration_analysis
                  [spend_row 10; spend_row 50; spend_row 40]))).
Proof.
  apply pareto_count_one_short.
  - discriminate.
  - repeat constructor.
  - cbv zeta. repeat constructor; intros H; vm_compute in H; discriminate H.
Defined.

(** C7 fails on a table of one supplier: its cumulative share is 100%, so
    the smallest prefix reaching 80% has size 1, and the code counts 0
    (and reports that 0% of the suppliers drive 80% of the spend). *)
Theorem pareto_count_single_supplier :
  0 < Qsum (map (fun row => Annual_Spend (supplier row)) [spend_row 100]) /\
  pareto_cutoff [spend_row 100] = Some 1%nat /\
  pareto_80_supplier_count (spend_concentration_analysis [spend_row 100])
  = 0%nat /\
  pareto_80_suppliers_pct (spend_concentration_analysis [spend_row 100])
  = Finite (0 / 1 * 100).
Proof. repeat split. Qed.

(** * Evaluations on small tables *)

Example classification_of_default_thresholds :
  map (classification_of default_thresholds) [100; 95; 94; 85; 84; 45; 44; 0]
  = [Strategic; Strategic; Critical; Critical; Operational; Operational;
     Transactional; Transactional].
Proof. reflexivity. Qed.

Example percentile_with_a_tie :
  Forall2 Qeq (map (percentile [10; 30; 30; 20]) [10; 30; 30; 20])
              [25; 100; 100; 50].
Proof. repeat constructor. Qed.

Example unknown_business_unit_raises :
  calculate_supplier_score init supplier_X "Business_Unit_C"
  = Raise (KeyError "Business_Unit_C").
Proof. reflexivity. Qed.

Example spend_minus_100_raises :
  calculate_supplier_score init
    {| Supplier_ID := "Z"; Business_Unit := "Business_Unit_A";
       Annual_Spend := -100; Ramp_Time_Months := 6;
       Partnership_Score := 2; Innovation_Score := 2; Supply_Risk_Score := 2;
       Sole_Source_Ratio := 0; Single_Source_Ratio := 0;
       Multi_Source_Ratio := 1 |} "Business_Unit_A"
  = Raise ZeroDivisionError.
Proof. reflexivity. Qed.

Example two_row_model_labels :
  match classify_suppliers two_row_model with
  | Ok out => map Classification out = [Strategic; Operational]
  | Raise _ => False
  end.
Proof. vm_compute. reflexivity. Qed.

Example sort_values_desc_spends :
  map spend_key
    (sort_values_desc spend_key [spend_row 10; spend_row 50; spend_row 40])
  = [50; 40; 10].
Proof. reflexivity. Qed.

(** Cumulative shares 50%, 90%, 100%: the code counts one row, the
    smallest prefix reaching 80% has two. *)
Example pareto_three_suppliers :
  pareto_80_supplier_count
    (spend_concentration_analysis [spend_row 10; spend_row 50; spend_row 40])
  = 1%nat /\
  pareto_cutoff [spend_row 10; spend_row 50; spend_row 40] = Some 2%nat.
Proof. split; reflexivity. Qed.

(** Cumulative shares 50%, 80%, 90%, 100%: a share of exactly 80% is
    counted, and both numbers are 2. *)
Example pareto_exactly_80 :
  pareto_80_supplier_count
    (spend_concentration_analysis
       [spend_row 10; spend_row 50; spend_row 30; spend_row 10])
  = 2%nat /\
  pareto_cutoff [spend_row 10; spend_row 50; spend_row 30; spend_row 10]
  = Some 2%nat.
Proof. split; reflexivity. Qed.

(** A total spend of zero: the shares are infinite or nan, not an error. *)
Example pareto_zero_total :
  pareto_80_supplier_count
    (spend_concentration_analysis [spend_row 5; spend_row (-5)])
  = 0%nat.
Proof. reflexivity. Qed.

(** * Further properties of the score *)

Section ScoreShape.

Lemma score_formula_affine (w : Weights) (r : Supplier) :
  score_formula w r
  == W0 w * (1 # 100)
     * (linear_part w r + W5 w * ramp_transform (Ramp_Time_Months r)
        + W6 w * spend_transform (Annual_Spend r)).
Proof.
  unfold score_formula, linear_part, ramp_transform, spend_transform.
  set (u := 1 / (1 + (Ramp_Time_Months r / 12) ^ 2)).
  set (v := 1 / (1 + Annual_Spend r / 100)).
  clearbody u v. field.
Qed.

Lemma saturating_mono (d1 d2 : Q) :
  0 < d1 -> d1 <= d2 -> 1 - 1 / d1 <= 1 - 1 / d2.
Proof.
  intros H1 H12.
  assert (H : 1 / d2 <= 1 / d1).
  { apply Qle_shift_div_l; [lra|].
    assert (E : 1 / d2 * d1 == d1 / d2) by (field; lra). rewrite E.
    apply Qle_shift_div_r; lra. }
  lra.
Qed.

Lemma spend_transform_mono (x1 x2 : Q) :
  -100 < x1 -> x1 <= x2 -> spend_transform x1 <= spend_transform x2.
Proof.
  intros H1 H12. unfold spend_transform.
  assert (E1 : x1 / 100 == x1 * (1 # 100)) by reflexivity.
  assert (E2 : x2 / 100 == x2 * (1 # 100)) by reflexivity.
  apply saturating_mono; lra.
Qed.

Lemma ramp_transform_mono (x1 x2 : Q) :
  0 <= x1 -> x1 <= x2 -> ramp_transform x1 <= ramp_transform x2.
Proof.
  intros H1 H12. unfold ramp_transform.
  assert (E1 : x1 / 12 == x1 * (1 # 12)) by reflexivity.
  assert (E2 : x2 / 12 == x2 * (1 # 12)) by reflexivity.
  apply saturating_mono.
  - pose proof (Qsquare_nonneg (x1 / 12)). lra.
  - assert ((x1 / 12) ^ 2 <= (x2 / 12) ^ 2); [|lra].
    rewrite E1, E2. simpl. nra.
Qed.

Lemma factor_mono (k a b : Q) : 0 <= k -> a <= b -> k * a <= k * b.
Proof. intros Hk Hab. nra. Qed.

Lemma scale_mono (k a b : Q) :
  0 <= k -> a <= b -> k * (1 # 100) * a <= k * (1 # 100) * b.
Proof. intros Hk Hab. nra. Qed.

Lemma score_formula_spend_mono (w : Weights) (r : Supplier) (x1 x2 : Q) :
  0 <= W0 w -> 0 <= W6 w -> -100 < x1 -> x1 <= x2 ->
  score_formula w (with_Annual_Spend r x1)
  <= score_formula w (with_Annual_Spend r x2).
Proof.
  intros H0 H6 H1 H12. rewrite !score_formula_affine.
  apply scale_mono; [exact H0|].
  pose proof (factor_mono _ _ _ H6 (spend_transform_mono x1 x2 H1 H12)).
  unfold linear_part. simpl. lra.
Qed.

Lemma score_formula_ramp_mono (w : Weights) (r : Supplier) (x1 x2 : Q) :
  0 <= W0 w -> 0 <= W5 w -> 0 <= x1 -> x1 <= x2 ->
  score_formula w (with_Ramp_Time_Months r x1)
  <= score_formula w (with_Ramp_Time_Months r x2).
Proof.
  intros H0 H5 H1 H12. rewrite !score_formula_affine.
  apply scale_mono; [exact H0|].
  pose proof (factor_mono _ _ _ H5 (ramp_transform_mono x1 x2 H1 H12)).
  unfold linear_part. simpl. lra.
Qed.

Lemma score_formula_risk_antimono (w : Weights) (r : Supplier) (x1 x2 : Q) :
  0 <= W0 w -> 0 <= W9 w -> x1 <= x2 ->
  score_formula w (with_Supply_Risk_Score r x2)
  <= score_formula w (with_Supply_Risk_Score r x1).
Proof.
  intros H0 H9 H12. rewrite !score_formula_affine.
  apply scale_mono; [exact H0|].
  assert (Hk : W9 w * ((4 - x2) * (1 # 3)) <= W9 w * ((4 - x1) * (1 # 3)))
    by (apply factor_mono; [exact H9|lra]).
  unfold linear_part. simpl. lra.
Qed.

(** Two scored rows, compared through the closed form. *)
Lemma calculate_supplier_score_compare
    (self : SupplierScoringModel) (bu : string) (w : Weights)
    (r1 r2 : Supplier) :
  bu_weights self !! bu = Some w ->
  ~ Annual_Spend r1 == -100 -> ~ Annual_Spend r2 == -100 ->
  score_formula w r1 <= score_formula w r2 ->
  exists s1 s2,
    calculate_supplier_score self r1 bu = Ok s1 /\
    calculate_supplier_score self r2 bu = Ok s2 /\
    s1 <= s2.
Proof.
  intros Hw Hs1 Hs2 Hle.
  destruct (calculate_supplier_score_returns self r1 bu w Hw Hs1) as [s1 H1].
  destruct (calculate_supplier_score_returns self r2 bu w Hw Hs2) as [s2 H2].
  exists s1, s2. split; [exact H1|]. split; [exact H2|].
  destruct (calculate_supplier_score_inv self r1 bu s1 H1) as (w1 & Hw1 & _ & E1).
  destruct (calculate_supplier_score_inv self r2 bu s2 H2) as (w2 & Hw2 & _ & E2).
  rewrite Hw in Hw1, Hw2. injection Hw1 as <-. injection Hw2 as <-.
  now rewrite E1, E2.
Qed.

End ScoreShape.

(** X1: with a non-negative scale factor and spend weight, a larger
    annual spend (above -100) never lowers the score of a row. *)
Theorem score_monotone_in_spend
    (self : SupplierScoringModel) (bu : string) (w : Weights)
    (r : Supplier) (x1 x2 : Q) :
  bu_weights self !! bu = Some w ->
  0 <= W0 w -> 0 <= W6 w -> -100 < x1 -> x1 <= x2 ->
  exists s1 s2,
    calculate_supplier_score self (with_Annual_Spend r x1) bu = Ok s1 /\
    calculate_supplier_score self (with_Annual_Spend r x2) bu = Ok s2 /\
    s1 <= s2.
Proof.
  intros Hw H0 H6 H1 H12.
  apply (calculate_supplier_score_compare self bu w); try assumption.
  - simpl. lra.
  - simpl. lra.
  - now apply score_formula_spend_mono.
Qed.

Lemma score_monotone_in_spend_witness :
  exists s1 s2,
    calculate_supplier_score init (with_Annual_Spend supplier_Y 1)
      "Business_Unit_A" = Ok s1 /\
    calculate_supplier_score init (with_Annual_Spend supplier_Y 500)
      "Business_Unit_A" = Ok s2 /\
    s1 <= s2.
Proof.
  apply (score_monotone_in_spend init "Business_Unit_A" Business_Unit_A_weights).
  - reflexivity.
  - simpl. lra.
  - simpl. lra.
  - lra.
  - lra.
Defined.

(** X2: with a non-negative scale factor and ramp weight, a longer ramp
    time (from 0 upwards) never lowers the score of a row. *)
Theorem score_monotone_in_ramp_time
    (self : SupplierScoringModel) (bu : string) (w : Weights)
    (r : Supplier) (x1 x2 : Q) :
  bu_weights self !! bu = Some w ->
  ~ Annual_Spend r == -100 ->
  0 <= W0 w -> 0 <= W5 w -> 0 <= x1 -> x1 <= x2 ->
  exists s1 s2,
    calculate_supplier_score self (with_Ramp_Time_Months r x1) bu = Ok s1 /\
    calculate_supplier_score self (with_Ramp_Time_Months r x2) bu = Ok s2 /\
    s1 <= s2.
Proof.
  intros Hw Hs H0 H5 H1 H12.
  apply (calculate_supplier_score_compare self bu w); try assumption.
  now apply score_formula_ramp_mono.
Qed.

Lemma score_monotone_in_ramp_time_witness :
  exists s1 s2,
    calculate_supplier_score init (with_Ramp_Time_Months supplier_Y 3)
      "Business_Unit_A" = Ok s1 /\
    calculate_supplier_score init (with_Ramp_Time_Months supplier_Y 24)
      "Business_Unit_A" = Ok s2 /\
    s1 <= s2.
Proof.
  apply (score_monotone_in_ramp_time init "Business_Unit_A"
           Business_Unit_A_weights).
  - reflexivity.
  - simpl. lra.
  - simpl. lra.
  - simpl. lra.
  - lra.
  - lra.
Defined.

(** X3: the risk rating is inverted: with a non-negative scale factor and
    risk weight, a higher supply-risk rating never raises the score. *)
Theorem score_antitone_in_risk
    (self : SupplierScoringModel) (bu : string) (w : Weights)
    (r : Supplier) (x1 x2 : Q) :
  bu_weights self !! bu = Some w ->
  ~ Annual_Spend r == -100 ->
  0 <= W0 w -> 0 <= W9 w -> x1 <= x2 ->
  exists s1 s2,
    calculate_supplier_score self (with_Supply_Risk_Score r x2) bu = Ok s2 /\
    calculate_supplier_score self (with_Supply_Risk_Score r x1) bu = Ok s1 /\
    s2 <= s1.
Proof.
  intros Hw Hs H0 H9 H12.
  destruct (calculate_supplier_score_compare self bu w
              (with_Supply_Risk_Score r x2) (with_Supply_Risk_Score r x1))
    as (s2 & s1 & E2 & E1 & Hle); try assumption.
  - now apply score_formula_risk_antimono.
  - exists s1, s2. auto.
Qed.

Lemma score_antitone_in_risk_witness :
  exists s1 s2,
    calculate_supplier_score init (with_Supply_Risk_Score supplier_X 3)
      "Business_Unit_B" = Ok s2 /\
    calculate_supplier_score init (with_Supply_Risk_Score supplier_X 1)
      "Business_Unit_B" = Ok s1 /\
    s2 <= s1.
Proof.
  apply (score_antitone_in_risk init "Business_Unit_B" Business_Unit_B_weights).
  - reflexivity.
  - simpl. lra.
  - simpl. lra.
  - simpl. lra.
  - lra.
Defined.

(** * The derived ratios of generated rows *)

Section Ratios.

Lemma inject_nat_nonneg (n : nat) : 0 <= inject_Z (Z.of_nat n).
Proof.
  change 0 with (inject_Z 0). rewrite <- Zle_Qle. lia.
Qed.

Lemma inject_nat_max_pos (n : nat) : 0 < inject_Z (Z.of_nat (Nat.max n 1)).
Proof.
  change 0 with (inject_Z 0). rewrite <- Zlt_Qlt. lia.
Qed.

Lemma parts_ratio_bounds (parts total : nat) :
  (parts <= total)%nat -> 0 <= parts_ratio parts total <= 1.
Proof.
  intros Hle. unfold parts_ratio.
  pose proof (inject_nat_max_pos total) as Hpos.
  split.
  - apply Qle_shift_div_l; [exact Hpos|]. pose proof (inject_nat_nonneg parts). lra.
  - apply Qle_shift_div_r; [exact Hpos|].
    assert (inject_Z (Z.of_nat parts) <= inject_Z (Z.of_nat (Nat.max total 1)))
      by (rewrite <- Zle_Qle; lia).
    lra.
Qed.

Lemma parts_ratio_sum (a b c : nat) :
  (0 < a + b + c)%nat ->
  parts_ratio a (a + b + c) + parts_ratio b (a + b + c)
  + parts_ratio c (a + b + c) == 1.
Proof.
  intros Hpos. unfold parts_ratio.
  replace (Nat.max (a + b + c) 1) with (a + b + c)%nat by lia.
  rewrite !Nat2Z.inj_add, !inject_Z_plus.
  assert (0 < inject_Z (Z.of_nat a) + inject_Z (Z.of_nat b)
              + inject_Z (Z.of_nat c)).
  { rewrite <- !inject_Z_plus, <- !Nat2Z.inj_add.
    change 0 with (inject_Z 0). rewrite <- Zlt_Qlt. lia. }
  field. lra.
Qed.

Lemma parts_ratio_no_parts (total : nat) : parts_ratio 0 total == 0.
Proof. unfold parts_ratio. simpl. unfold Qdiv. ring. Qed.

(** When the ratios sum to at most 1 the sourcing weights count only
    through the largest of them. *)
Lemma score_formula_bounds_mix (w : Weights) (r : Supplier) (m : Q) :
  record_in_range r ->
  Sole_Source_Ratio r + Single_Source_Ratio r + Multi_Source_Ratio r <= 1 ->
  0 <= W2 w <= m -> 0 <= W3 w <= m -> 0 <= W4 w <= m ->
  0 <= W5 w -> 0 <= W6 w -> 0 <= W7 w -> 0 <= W8 w -> 0 <= W9 w ->
  m + W5 w + W6 w + W7 w + W8 w + W9 w <= 100 ->
  0 <= W0 w <= 100 ->
  0 <= score_formula w r <= 100.
Proof.
  intros (Hsole & Hsingle & Hmulti & Hramp & Hspend & Hp & Hi & Hk)
         Hsum H2 H3 H4 H5 H6 H7 H8 H9 Hw H0.
  rewrite score_formula_affine.
  assert (Hu : 0 <= ramp_transform (Ramp_Time_Months r) <= 1).
  { apply unit_inverse_bounds.
    pose proof (Qsquare_nonneg (Ramp_Time_Months r / 12)). lra. }
  assert (Hv : 0 <= spend_transform (Annual_Spend r) <= 1).
  { apply unit_inverse_bounds.
    assert (Annual_Spend r / 100 == Annual_Spend r * (1 # 100)) by reflexivity.
    lra. }
  set (u := ramp_transform (Ramp_Time_Months r)) in *.
  set (v := spend_transform (Annual_Spend r)) in *.
  clearbody u v. unfold linear_part.
  set (a := Sole_Source_Ratio r) in *. set (b := Single_Source_Ratio r) in *.
  set (c := Multi_Source_Ratio r) in *.
  set (p := Partnership_Score r * (1 # 3)).
  set (i := Innovation_Score r * (1 # 3)).
  set (k := (4 - Supply_Risk_Score r) * (1 # 3)).
  assert (Hp' : 0 <= p <= 1) by (unfold p; lra).
  assert (Hi' : 0 <= i <= 1) by (unfold i; lra).
  assert (Hk' : 0 <= k <= 1) by (unfold k; lra).
  clearbody a b c p i k.
  assert (Ha : 0 <= W2 w * a <= m * a) by nra.
  assert (Hb : 0 <= W3 w * b <= m * b) by nra.
  assert (Hc : 0 <= W4 w * c <= m * c) by nra.
  assert (Hm : m * a + m * b + m * c <= m) by nra.
  pose proof (weighted_share_bounds _ _ H5 Hu).
  pose proof (weighted_share_bounds _ _ H6 Hv).
  pose proof (weighted_share_bounds _ _ H7 Hp').
  pose proof (weighted_share_bounds _ _ H8 Hi').
  pose proof (weighted_share_bounds _ _ H9 Hk').
  set (t := W2 w * a + W3 w * b + W4 w * c + W7 w * p + W8 w * i + W9 w * k
            + W5 w * u + W6 w * v).
  assert (Ht : 0 <= t <= 100) by (unfold t; lra).
  clearbody t.
  assert (E : W0 w * (1 # 100) * t == t * W0 w * (1 # 100)) by ring.
  rewrite E. now apply scaled_bounds.
Qed.

End Ratios.


Lemma parts_ratio_sum_le (a b c : nat) :
  parts_ratio a (a + b + c) + parts_ratio b (a + b + c)
  + parts_ratio c (a + b + c) <= 1.
Proof.
  destruct (Nat.eq_dec (a + b + c)%nat 0%nat) as [H0|Hpos].
  - assert (a = 0 /\ b = 0 /\ c = 0)%nat as (-> & -> & ->) by lia.
    rewrite !parts_ratio_no_parts. lra.
  - rewrite parts_ratio_sum by lia. lra.
Qed.

Lemma generated_row_in_range
    (supplier_id business_unit : string)
    (spend ramp partnership innovation risk : Q) (p : PartCounts) :
  0 < spend ->
  In ramp [3; 6; 9; 12; 18; 24] ->
  In partnership [1; 2; 3] -> In innovation [1; 2; 3] -> In risk [1; 2; 3] ->
  let row := generated_row supplier_id business_unit spend ramp
               partnership innovation risk p in
  record_in_range row /\
  Sole_Source_Ratio row + Single_Source_Ratio row + Multi_Source_Ratio row <= 1.
Proof.
  intros Hspend Hramp Hp Hi Hk. cbv zeta.
  destruct p as [a b c]. unfold generated_row, total_parts, record_in_range.
  cbn [Sole_Source_Ratio Single_Source_Ratio Multi_Source_Ratio
       Sole_Source_Parts Single_Source_Parts Multi_Source_Parts
       Annual_Spend Ramp_Time_Months Partnership_Score Innovation_Score
       Supply_Risk_Score].
  split; [|apply parts_ratio_sum_le].
  split; [apply parts_ratio_bounds; lia|].
  split; [apply parts_ratio_bounds; lia|].
  split; [apply parts_ratio_bounds; lia|].
  split; [simpl in Hramp; intuition (subst; lra)|].
  split; [lra|].
  split; [simpl in Hp; intuition (subst; lra)|].
  split; [simpl in Hi; intuition (subst; lra)|].
  simpl in Hk; intuition (subst; lra).
Qed.

(** X5: when the three ratios of a record sum to at most 1, the score
    stays within [0, 100] as soon as the largest sourcing weight plus the
    five other weights is at most 100 (weights non-negative, scale factor
    in [0, 100]); the three sourcing weights need not fit together. *)
Theorem calculate_supplier_score_range_mix
    (self : SupplierScoringModel) (row : Supplier) (bu : string)
    (w : Weights) (m : Q) :
  bu_weights self !! bu = Some w ->
  record_in_range row ->
  Sole_Source_Ratio row + Single_Source_Ratio row + Multi_Source_Ratio row <= 1 ->
  0 <= W2 w <= m -> 0 <= W3 w <= m -> 0 <= W4 w <= m ->
  0 <= W5 w -> 0 <= W6 w -> 0 <= W7 w -> 0 <= W8 w -> 0 <= W9 w ->
  m + W5 w + W6 w + W7 w + W8 w + W9 w <= 100 ->
  0 <= W0 w <= 100 ->
  exists s, calculate_supplier_score self row bu = Ok s /\ 0 <= s <= 100.
Proof.
  intros Hw Hrow Hsum H2 H3 H4 H5 H6 H7 H8 H9 Hm H0.
  assert (Hs : ~ Annual_Spend row == -100).
  { destruct Hrow as (_ & _ & _ & _ & Hspend & _). lra. }
  destruct (calculate_supplier_score_returns self row bu w Hw Hs) as [s Hcalc].
  exists s. split; [exact Hcalc|].
  destruct (calculate_supplier_score_inv self row bu s Hcalc)
    as (w' & Hw' & _ & Heq).
  rewrite Hw in Hw'. injection Hw' as <-.
  rewrite Heq. now apply (score_formula_bounds_mix w row m).
Qed.

Lemma calculate_supplier_score_range_mix_witness :
  exists s, calculate_supplier_score init supplier_X "Business_Unit_A" = Ok s /\
            0 <= s <= 100.
Proof.
  apply (calculate_supplier_score_range_mix init supplier_X "Business_Unit_A"
           Business_Unit_A_weights 30).
  - reflexivity.
  - unfold record_in_range; simpl. repeat split; lra.
  - simpl. lra.
  - simpl. lra.
  - simpl. lra.
  - simpl. lra.
  - simpl. lra.
  - simpl. lra.
  - simpl. lra.
  - simpl. lra.
  - simpl. lra.
  - simpl. lra.
  - simpl. lra.
Defined.

(** X6: every row the generator can build (one of the two business
    units, a positive spend, a ramp time, ratings and part counts out of
    its draws) gets a score between 0 and 100 under the built-in weights. *)
Theorem generated_row_score_range
    (supplier_id business_unit : string)
    (spend ramp partnership innovation risk : Q) (p : PartCounts) :
  In business_unit ["Business_Unit_A"; "Business_Unit_B"]%string ->
  0 < spend ->
  In ramp [3; 6; 9; 12; 18; 24] ->
  In partnership [1; 2; 3] -> In innovation [1; 2; 3] -> In risk [1; 2; 3] ->
  exists s,
    calculate_supplier_score init
      (generated_row supplier_id business_unit spend ramp
         partnership innovation risk p)
      business_unit = Ok s /\
    0 <= s <= 100.
Proof.
  intros Hbu Hspend Hramp Hp Hi Hk.
  destruct (generated_row_in_range supplier_id business_unit spend ramp
              partnership innovation risk p Hspend Hramp Hp Hi Hk)
    as [Hrange Hsum].
  set (row := generated_row _ _ _ _ _ _ _ _) in *. clearbody row.
  assert (Hs : ~ Annual_Spend row == -100).
  { destruct Hrange as (_ & _ & _ & _ & H & _). lra. }
  assert (Hcase :
    exists w m, bu_weights init !! business_unit = Some w /\
      0 <= W2 w <= m /\ 0 <= W3 w <= m /\ 0 <= W4 w <= m /\
      0 <= W5 w /\ 0 <= W6 w /\ 0 <= W7 w /\ 0 <= W8 w /\ 0 <= W9 w /\
      m + W5 w + W6 w + W7 w + W8 w + W9 w <= 100 /\ 0 <= W0 w <= 100).
  { destruct Hbu as [<-|[<-|[]]].
    - exists Business_Unit_A_weights, 30. split; [reflexivity|].
      simpl. repeat split; lra.
    - exists Business_Unit_B_weights, 5. split; [reflexivity|].
      simpl. repeat split; lra. }
  destruct Hcase as (w & m & Hw & H2 & H3 & H4 & H5 & H6 & H7 & H8 & H9 & Hm & H0).
  destruct (calculate_supplier_score_returns init row business_unit w Hw Hs)
    as [s Hcalc].
  exists s. split; [exact Hcalc|].
  destruct (calculate_supplier_score_inv init row business_unit s Hcalc)
    as (w' & Hw' & _ & Heq).
  rewrite Hw in Hw'. injection Hw' as <-.
  rewrite Heq. now apply (score_formula_bounds_mix w row m).
Qed.

Lemma generated_row_score_range_witness :
  exists s,
    calculate_supplier_score init
      (generated_row "SUP_0001" "Business_Unit_A" 162755 6 2 2 1
         {| Sole_Source_Parts := 2; Single_Source_Parts := 5;
            Multi_Source_Parts := 15 |})
      "Business_Unit_A" = Ok s /\
    0 <= s <= 100.
Proof.
  apply generated_row_score_range; simpl; try lra; tauto.
Defined.

(** * Further properties of the classification *)

Section ClassifyMore.

Lemma for_each_raise {A B : Type} (f : A -> result B)
    (good : list A) (bad : A) (rest : list A) (e : Exception) :
  Forall (fun x => exists y, f x = Ok y) good ->
  f bad = Raise e ->
  for_each f (good ++ bad :: rest) = Raise e.
Proof.
  intros Hgood Hbad. induction Hgood as [|x good [y Hy] _ IH]; simpl.
  - now rewrite Hbad.
  - rewrite Hy. bind_steps. now rewrite IH.
Qed.

Lemma scorable_returns (self : SupplierScoringModel) (d : Supplier) :
  scorable self d ->
  exists s, calculate_supplier_score self d (Business_Unit d) = Ok s.
Proof.
  intros [[w Hw] Hs]. eapply calculate_supplier_score_returns; eauto.
Qed.

Lemma percentile_lower (col : list Q) (s : Q) :
  In s col -> 100 / len col <= percentile col s.
Proof.
  intros Hin. rewrite percentile_inclusive_rank. unfold inclusive_rank.
  assert (Hne : col <> []) by (destruct col; [destruct Hin|discriminate]).
  pose proof (len_pos col Hne) as Hn.
  assert (Hc : 1 <= len (List.filter (fun x => Qle_bool x s) col)).
  { clear Hne Hn. induction col as [|x col IH]; [destruct Hin|].
    simpl. destruct Hin as [->|Hin].
    - assert (E : Qle_bool s s = true) by (apply Qle_bool_iff, Qle_refl).
      rewrite E, len_cons. pose proof (len_nonneg
        (List.filter (fun x => Qle_bool x s) col)). lra.
    - specialize (IH Hin). destruct (Qle_bool x s); [rewrite len_cons|]; lra. }
  set (c := len (List.filter (fun x => Qle_bool x s) col)) in *.
  assert (E : 100 / len col == 1 / len col * 100) by (field; lra).
  rewrite E. apply Qmult_le_compat_r; [|lra].
  unfold Qdiv. apply Qmult_le_compat_r; [exact Hc|].
  apply Qinv_le_0_compat. lra.
Qed.

Lemma percentile_upper (col : list Q) (s : Q) :
  col <> [] -> percentile col s <= 100.
Proof.
  intros Hne. rewrite percentile_inclusive_rank. unfold inclusive_rank.
  pose proof (len_pos col Hne) as Hn.
  assert (Hc : len (List.filter (fun x => Qle_bool x s) col) <= len col).
  { clear Hne Hn. induction col as [|x col IH]; [apply Qle_refl|].
    simpl. destruct (Qle_bool x s); rewrite !len_cons; lra. }
  assert (E : 100 == len col / len col * 100) by (field; lra).
  rewrite E at 2. apply Qmult_le_compat_r; [|lra].
  unfold Qdiv. apply Qmult_le_compat_r; [exact Hc|].
  apply Qinv_le_0_compat. lra.
Qed.

End ClassifyMore.

(** X7: classification is all or nothing: when the first row that cannot
    be scored raises an error ([KeyError] for a business unit without
    weights, [ZeroDivisionError] for a spend of -100), [classify_suppliers]
    raises that error, whatever the rows after it. *)
Theorem classify_suppliers_raises_first_error
    (self : SupplierScoringModel) (good : list Supplier) (bad : Supplier)
    (rest : list Supplier) (e : Exception) :
  suppliers_data self = Some (good ++ bad :: rest) ->
  Forall (scorable self) good ->
  calculate_supplier_score self bad (Business_Unit bad) = Raise e ->
  classify_suppliers self = Raise e.
Proof.
  intros Hdata Hgood Hbad. unfold classify_suppliers. rewrite Hdata.
  rewrite (for_each_raise _ good bad rest e); [reflexivity| |exact Hbad].
  eapply List.Forall_impl; [|exact Hgood].
  intros d Hd. now apply scorable_returns.
Qed.

Lemma classify_suppliers_raises_first_error_witness :
  classify_suppliers (model_with [supplier_X; unknown_unit_row; supplier_Y])
  = Raise (KeyError "Business_Unit_C").
Proof.
  apply (classify_suppliers_raises_first_error
           (model_with [supplier_X; unknown_unit_row; supplier_Y])
           [supplier_X] unknown_unit_row [supplier_Y]).
  - reflexivity.
  - repeat constructor; try (eexists; reflexivity); simpl; lra.
  - reflexivity.
Defined.

(** X8: in a classified table of n rows every row's percentile lies
    between 100/n and 100: a row always counts itself, so no percentile is
    0. *)
Theorem classify_suppliers_percentile_bounds
    (self : SupplierScoringModel) (data : list Supplier) :
  suppliers_data self = Some data ->
  Forall (scorable self) data ->
  exists out,
    classify_suppliers self = Ok out /\
    forall a, In a out ->
      100 / len out <= percentile (map Score out) (Score a) <= 100.
Proof.
  intros Hdata Hall.
  destruct (classify_suppliers_returns self data Hdata Hall) as [out Hout].
  exists out. split; [exact Hout|].
  intros a Ha. split.
  - replace (len out) with (len (map Score out))
      by (unfold len; now rewrite length_map).
    apply percentile_lower. now apply in_map.
  - apply percentile_upper. destruct out; [destruct Ha|discriminate].
Qed.

Lemma classify_suppliers_percentile_bounds_witness :
  exists out,
    classify_suppliers two_row_model = Ok out /\
    forall a, In a out ->
      100 / len out <= percentile (map Score out) (Score a) <= 100.
Proof.
  apply (classify_suppliers_percentile_bounds two_row_model
           [supplier_X; supplier_Y] eq_refl two_row_model_scorable).
Defined.

(** X9: with the built-in thresholds a table of one or two rows has no
    Transactional row: every percentile is at least 50, which already
    meets the Operational threshold of 45. *)
Theorem classify_suppliers_small_table
    (self : SupplierScoringModel) (data : list Supplier) :
  suppliers_data self = Some data ->
  segmentation_thresholds self = default_thresholds ->
  Forall (scorable self) data ->
  (length data <= 2)%nat ->
  exists out,
    classify_suppliers self = Ok out /\
    forall a, In a out -> Classification a <> Transactional.
Proof.
  intros Hdata Hth Hall Hlen.
  destruct (classify_suppliers_returns self data Hdata Hall) as [out Hout].
  destruct (classify_suppliers_inv self data out Hdata Hout) as [Hrows _ Hlab].
  exists out. split; [exact Hout|].
  intros a Ha. rewrite (Hlab a Ha), Hth.
  assert (Hp : 50 <= percentile (map Score out) (Score a)).
  { apply Qle_trans with (100 / len (map Score out)).
    - assert (Hn : (1 <= length (map Score out) <= 2)%nat).
      { rewrite length_map. rewrite <- Hrows in Hlen.
        rewrite length_map in Hlen. split; [|exact Hlen].
        destruct out; [destruct Ha|simpl; lia]. }
      unfold len.
      destruct (length (map Score out)) as [|[|[|n]]]; try lia;
        vm_compute; discriminate.
    - apply percentile_lower. now apply in_map. }
  unfold classification_of. simpl.
  assert (E : Qle_bool 45 (percentile (map Score out) (Score a)) = true)
    by (apply Qle_bool_iff; lra).
  rewrite E.
  destruct (Qle_bool 95 _); [discriminate|].
  destruct (Qle_bool 85 _); discriminate.
Qed.

Lemma classify_suppliers_small_table_witness :
  exists out,
    classify_suppliers two_row_model = Ok out /\
    forall a, In a out -> Classification a <> Transactional.
Proof.
  apply (classify_suppliers_small_table two_row_model
           [supplier_X; supplier_Y] eq_refl eq_refl two_row_model_scorable).
  simpl. lia.
Defined.

Section RowOrder.

Lemma for_each_score_of (self : SupplierScoringModel)
    (data : list Supplier) (scores : list Q) :
  Forall2 (fun d s => calculate_supplier_score self d (Business_Unit d) = Ok s)
          data scores ->
  scores = map (score_of self) data.
Proof.
  induction 1 as [|d s data scores Hd _ IH]; [reflexivity|].
  simpl. unfold score_of at 1. rewrite Hd. now f_equal.
Qed.

Lemma attach_columns_map (sc : Supplier -> Q) (g : Q -> Segment)
    (data : list Supplier) :
  attach_columns data (map sc data) (map g (map sc data))
  = map (fun d => {| supplier := d; Score := sc d;
                     Classification := g (sc d) |}) data.
Proof.
  induction data as [|d data IH]; [reflexivity|]. simpl. now f_equal.
Qed.

(** The table returned by [classify_suppliers], row by row. *)
Lemma classify_suppliers_labelled (self : SupplierScoringModel)
    (data : list Supplier) (out : list ScoredSupplier) :
  suppliers_data self = Some data ->
  classify_suppliers self = Ok out ->
  out = map (labelled self (map (score_of self) data)) data.
Proof.
  intros Hdata. unfold classify_suppliers. rewrite Hdata. intros H.
  apply bind_Ok_inv in H as (scores & Hscores & H).
  injection H as <-. apply for_each_inv, for_each_score_of in Hscores.
  subst scores. apply attach_columns_map.
Qed.

Lemma filter_length_perm {A : Type} (f : A -> bool) (l l' : list A) :
  Permutation l l' ->
  length (List.filter f l) = length (List.filter f l').
Proof.
  induction 1 as [|x l l' _ IH|x y l|l l' l'' _ IH1 _ IH2]; simpl.
  - reflexivity.
  - destruct (f x); simpl; congruence.
  - destruct (f x), (f y); reflexivity.
  - congruence.
Qed.

Lemma percentile_perm (col col' : list Q) (s : Q) :
  Permutation col col' -> percentile col s == percentile col' s.
Proof.
  intros Hperm. rewrite !percentile_inclusive_rank.
  unfold inclusive_rank, len.
  rewrite (filter_length_perm _ col col' Hperm).
  now rewrite (Permutation_length Hperm).
Qed.

End RowOrder.

(** X10: the labels do not depend on the order of the rows: classifying a
    reordered table gives the same classified rows, reordered. *)
Theorem classify_suppliers_row_order
    (weights : gmap string Weights) (th : Thresholds)
    (data data' : list Supplier) :
  Permutation data data' ->
  Forall (scorable {| suppliers_data := Some data; bu_weights := weights;
                      segmentation_thresholds := th |}) data ->
  exists out out',
    classify_suppliers {| suppliers_data := Some data; bu_weights := weights;
                          segmentation_thresholds := th |} = Ok out /\
    classify_suppliers {| suppliers_data := Some data'; bu_weights := weights;
                          segmentation_thresholds := th |} = Ok out' /\
    Permutation out out'.
Proof.
  intros Hperm Hall.
  set (self := {| suppliers_data := Some data; bu_weights := weights;
                  segmentation_thresholds := th |}) in *.
  set (self' := {| suppliers_data := Some data'; bu_weights := weights;
                   segmentation_thresholds := th |}).
  assert (Hall' : Forall (scorable self') data').
  { apply (Permutation_Forall Hperm) in Hall.
    eapply List.Forall_impl; [|exact Hall]. intros d Hd. exact Hd. }
  destruct (classify_suppliers_returns self data eq_refl Hall) as [out Hout].
  destruct (classify_suppliers_returns self' data' eq_refl Hall')
    as [out' Hout'].
  exists out, out'. split; [exact Hout|]. split; [exact Hout'|].
  rewrite (classify_suppliers_labelled self data out eq_refl Hout).
  rewrite (classify_suppliers_labelled self' data' out' eq_refl Hout').
  assert (Hsc : forall d, score_of self' d = score_of self d) by reflexivity.
  rewrite (map_ext (labelled self' (map (score_of self') data'))
                   (labelled self (map (score_of self) data))).
  - now apply Permutation_map.
  - intros d. unfold labelled. rewrite Hsc. f_equal.
    apply classification_of_tie. apply percentile_perm.
    rewrite (map_ext _ _ Hsc). apply Permutation_map. now symmetry.
Qed.

Lemma classify_suppliers_row_order_witness :
  exists out out',
    classify_suppliers (model_with [supplier_X; supplier_Y]) = Ok out /\
    classify_suppliers (model_with [supplier_Y; supplier_X]) = Ok out' /\
    Permutation out out'.
Proof.
  apply (classify_suppliers_row_order default_bu_weights default_thresholds
           [supplier_X; supplier_Y] [supplier_Y; supplier_X]).
  - apply perm_swap.
  - exact two_row_model_scorable.
Defined.

(** * Further properties of the Pareto count *)

Section Prefix.

Context (total : Q) (Htotal : 0 < total).

Lemma share_mono (c1 c2 : Q) :
  c1 <= c2 -> c1 / total * 100 <= c2 / total * 100.
Proof.
  intros H. apply Qmult_le_compat_r; [|lra].
  unfold Qdiv. apply Qmult_le_compat_r; [exact H|].
  apply Qinv_le_0_compat. lra.
Qed.

Lemma Qsum_firstn_nonneg (col : list Q) (j : nat) :
  Forall (fun q => 0 <= q) col -> 0 <= Qsum (firstn j col).
Proof.
  intros H. apply Qsum_nonneg. revert j.
  induction H as [|x col Hx _ IH]; intros [|j]; simpl; constructor; auto.
Qed.

(** The counted cumulative spends are those of a prefix: the running
    share stays within 80% up to the count and is above 80% after it. *)
Lemma count_within_80_prefix (col : list Q) :
  Forall (fun q => 0 <= q) col ->
  forall acc,
    (forall j, (1 <= j <= count_within_80 total acc col)%nat ->
       (acc + Qsum (firstn j col)) / total * 100 <= 80) /\
    (forall j, (count_within_80 total acc col < j <= length col)%nat ->
       80 < (acc + Qsum (firstn j col)) / total * 100).
Proof.
  induction 1 as [|x col Hx Hcol IH]; intros acc.
  - split; intros j Hj; simpl in Hj; [|lia].
    change (count_within_80 total acc []) with 0%nat in Hj. lia.
  - rewrite count_within_80_cons, within_80_pos by exact Htotal.
    destruct (IH (acc + x)) as [IHle IHgt].
    destruct (Qle_bool ((acc + x) / total * 100) 80) eqn:E.
    + apply Qle_bool_iff in E. split; intros [|j] Hj; try (simpl in Hj; lia).
      * destruct j as [|j].
        -- simpl. assert (Eq : acc + (x + 0) == acc + x) by ring.
           now rewrite Eq.
        -- assert (Eq : acc + Qsum (firstn (S (S j)) (x :: col))
                        == acc + x + Qsum (firstn (S j) col))
             by (simpl; ring).
           rewrite Eq. apply IHle. simpl in Hj. lia.
      * assert (Eq : acc + Qsum (firstn (S j) (x :: col))
                     == acc + x + Qsum (firstn j col))
          by (simpl; ring).
        rewrite Eq. apply IHgt. simpl in Hj. lia.
    + assert (Hgt : 80 < (acc + x) / total * 100).
      { destruct (Qlt_le_dec 80 ((acc + x) / total * 100)) as [?|Hle];
          [assumption|].
        apply Qle_bool_iff in Hle. congruence. }
      rewrite (count_within_80_past total Htotal col Hcol (acc + x) Hgt).
      split; intros [|j] Hj; try (simpl in Hj; lia).
      assert (Eq : acc + Qsum (firstn (S j) (x :: col))
                   == acc + x + Qsum (firstn j col))
        by (simpl; ring).
      rewrite Eq.
      pose proof (Qsum_firstn_nonneg col j Hcol).
      pose proof (share_mono (acc + x) (acc + x + Qsum (firstn j col))
                    ltac:(lra)).
      lra.
Qed.

End Prefix.

Lemma count_true_le (col : list bool) : (count_true col <= length col)%nat.
Proof.
  unfold count_true. induction col as [|b col IH]; simpl; [lia|].
  destruct b; simpl; lia.
Qed.

Lemma length_sort_values_desc {A : Type} (key : A -> Q) (l : list A) :
  length (sort_values_desc key l) = length l.
Proof.
  induction l as [|x l IH]; simpl; [reflexivity|].
  now rewrite length_insert_desc, IH.
Qed.

Lemma firstn_whole {A : Type} (l : list A) : firstn (length l) l = l.
Proof. induction l; simpl; congruence. Qed.

(** X11: what the Pareto count is, on a table of non-negative spends with
    a positive total: the size of the largest prefix of the table sorted
    by descending spend whose cumulative spend share is at most 80%.  The
    share of every prefix up to the count is at most 80%, the share of
    every longer prefix is above 80%. *)
Theorem pareto_count_largest_prefix (data : list ScoredSupplier) :
  Forall (fun row => 0 <= Annual_Spend (supplier row)) data ->
  0 < Qsum (map (fun row => Annual_Spend (supplier row)) data) ->
  let col :=
    map (fun row => Annual_Spend (supplier row))
      (sort_values_desc (fun row => Annual_Spend (supplier row)) data) in
  let k := pareto_80_supplier_count (spend_concentration_analysis data) in
  (forall j, (1 <= j <= k)%nat ->
     Qsum (firstn j col) / Qsum col * 100 <= 80) /\
  (forall j, (k < j <= length data)%nat ->
     80 < Qsum (firstn j col) / Qsum col * 100).
Proof.
  intros Hpos Ht. cbv zeta. rewrite pareto_80_supplier_count_unfold.
  fold spend_key in *.
  set (col := map spend_key (sort_values_desc spend_key data)).
  assert (Hcol : Forall (fun q => 0 <= q) col).
  { unfold col. apply Forall_map. now apply sort_values_desc_Forall. }
  assert (HT : 0 < Qsum col).
  { unfold col. now rewrite Qsum_sort_values_desc. }
  destruct (count_within_80_prefix (Qsum col) HT col Hcol 0) as [Hle Hgt].
  assert (Hlen : length col = length data).
  { unfold col. now rewrite length_map, length_sort_values_desc. }
  split; intros j Hj.
  - specialize (Hle j Hj).
    assert (E : 0 + Qsum (firstn j col) == Qsum (firstn j col)) by ring.
    now rewrite E in Hle.
  - rewrite <- Hlen in Hj. specialize (Hgt j Hj).
    assert (E : 0 + Qsum (firstn j col) == Qsum (firstn j col)) by ring.
    now rewrite E in Hgt.
Qed.

Lemma pareto_count_largest_prefix_witness :
  let data := [spend_row 10; spend_row 50; spend_row 40] in
  let col :=
    map (fun row => Annual_Spend (supplier row))
      (sort_values_desc (fun row => Annual_Spend (supplier row)) data) in
  let k := pareto_80_supplier_count (spend_concentration_analysis data) in
  (forall j, (1 <= j <= k)%nat ->
     Qsum (firstn j col) / Qsum col * 100 <= 80) /\
  (forall j, (k < j <= length data)%nat ->
     80 < Qsum (firstn j col) / Qsum col * 100).
Proof.
  apply pareto_count_largest_prefix.
  - repeat constructor; simpl; lra.
  - reflexivity.
Defined.

Lemma pareto_count_lt_length (data : list ScoredSupplier) :
  Forall (fun row => 0 <= Annual_Spend (supplier row)) data ->
  0 < Qsum (map (fun row => Annual_Spend (supplier row)) data) ->
  (pareto_80_supplier_count (spend_concentration_analysis data)
   < length data)%nat.
Proof.
  intros Hpos Ht. rewrite pareto_80_supplier_count_unfold.
  fold spend_key in *.
  set (col := map spend_key (sort_values_desc spend_key data)).
  assert (Hcol : Forall (fun q => 0 <= q) col).
  { unfold col. apply Forall_map. now apply sort_values_desc_Forall. }
  assert (HT : 0 < Qsum col).
  { unfold col. now rewrite Qsum_sort_values_desc. }
  assert (Hlen : length col = length data).
  { unfold col. now rewrite length_map, length_sort_values_desc. }
  assert (Hne : (0 < length col)%nat).
  { destruct col; [simpl in HT; lra|simpl; lia]. }
  destruct (count_within_80_prefix (Qsum col) HT col Hcol 0) as [Hle _].
  destruct (Nat.lt_ge_cases (count_within_80 (Qsum col) 0 col) (length col))
    as [Hlt|Hge]; [lia|].
  exfalso. specialize (Hle (length col) ltac:(lia)).
  rewrite firstn_whole in Hle.
  assert (E : (0 + Qsum col) / Qsum col * 100 == 100) by (field; lra).
  rewrite E in Hle. lra.
Qed.

(** X12: on a non-empty table of non-negative spends with a positive
    total the Pareto count never takes in every supplier (the whole table
    holds 100% of the spend), so the reported percentage of suppliers is a
    number in [0, 100). *)
Theorem pareto_count_below_table_size (data : list ScoredSupplier) :
  Forall (fun row => 0 <= Annual_Spend (supplier row)) data ->
  0 < Qsum (map (fun row => Annual_Spend (supplier row)) data) ->
  (pareto_80_supplier_count (spend_concentration_analysis data)
   < length data)%nat /\
  exists q,
    pareto_80_suppliers_pct (spend_concentration_analysis data) = Finite q /\
    0 <= q < 100.
Proof.
  intros Hpos Ht.
  assert (Hne : data <> []).
  { intros ->. simpl in Ht. lra. }
  assert (Hk : (pareto_80_supplier_count (spend_concentration_analysis data)
                < length data)%nat).
  { now apply pareto_count_lt_length. }
  split; [exact Hk|].
  set (k := pareto_80_supplier_count (spend_concentration_analysis data)) in *.
  assert (Hn : 0 < len (sort_values_desc spend_key data)).
  { apply len_pos. intros E. apply (f_equal (@length _)) in E.
    rewrite length_sort_values_desc in E. destruct data; [congruence|discriminate]. }
  exists (inject_Z (Z.of_nat k) / len (sort_values_desc spend_key data) * 100).
  split.
  - unfold spend_concentration_analysis. fold spend_key.
    cbn [pareto_80_suppliers_pct]. unfold np_div.
    destruct (Qeq_bool (len (sort_values_desc spend_key data)) 0) eqn:E.
    + apply Qeq_bool_iff in E. lra.
    + reflexivity.
  - assert (Hkn : inject_Z (Z.of_nat k) < len (sort_values_desc spend_key data)).
    { unfold len. rewrite length_sort_values_desc, <- Zlt_Qlt. lia. }
    pose proof (inject_nat_nonneg k) as Hk0.
    set (n := len (sort_values_desc spend_key data)) in *.
    set (c := inject_Z (Z.of_nat k)) in *.
    assert (H1 : 0 <= c / n) by (apply Qle_shift_div_l; lra).
    assert (H2 : c / n < 1) by (apply Qlt_shift_div_r; lra).
    lra.
Qed.

Lemma pareto_count_below_table_size_witness :
  (pareto_80_supplier_count
     (spend_concentration_analysis [spend_row 10; spend_row 50; spend_row 40])
   < 3)%nat /\
  exists q,
    pareto_80_suppliers_pct
      (spend_concentration_analysis [spend_row 10; spend_row 50; spend_row 40])
    = Finite q /\
    0 <= q < 100.
Proof.
  apply (pareto_count_below_table_size
           [spend_row 10; spend_row 50; spend_row 40]).
  - repeat constructor; simpl; lra.
  - reflexivity.
Defined.

Section Rescaling.

Lemma Qle_bool_ext (a b a' b' : Q) :
  (a <= b <-> a' <= b') -> Qle_bool a b = Qle_bool a' b'.
Proof.
  intros H. destruct (Qle_bool a b) eqn:E, (Qle_bool a' b') eqn:E';
    try reflexivity.
  - apply Qle_bool_iff, H, Qle_bool_iff in E. congruence.
  - apply Qle_bool_iff, H, Qle_bool_iff in E'. congruence.
Qed.

Lemma Qeq_bool_ext (a b a' b' : Q) :
  (a == b <-> a' == b') -> Qeq_bool a b = Qeq_bool a' b'.
Proof.
  intros H. destruct (Qeq_bool a b) eqn:E, (Qeq_bool a' b') eqn:E';
    try reflexivity.
  - apply Qeq_bool_iff, H, Qeq_bool_iff in E. congruence.
  - apply Qeq_bool_iff, H, Qeq_bool_iff in E'. congruence.
Qed.

Context (k : Q) (Hk : 0 < k).

(** Multiplying the total and a cumulative spend by the same positive
    factor does not move the cumulative share, whatever the total. *)
Lemma within_80_scaled (total total' c c' : Q) :
  total' == k * total -> c' == k * c ->
  within_80 total' c' = within_80 total c.
Proof.
  intros HT Hc. unfold within_80, np_div, Qlt_bool.
  rewrite (Qeq_bool_ext total' 0 total 0) by (rewrite HT; split; intros; nra).
  destruct (Qeq_bool total 0) eqn:E.
  - rewrite (Qle_bool_ext c' 0 c 0) by (rewrite Hc; split; intros; nra).
    rewrite (Qle_bool_ext 0 c' 0 c) by (rewrite Hc; split; intros; nra).
    reflexivity.
  - assert (Hne : ~ total == 0).
    { intros H. apply Qeq_bool_iff in H. congruence. }
    simpl. apply Qle_bool_ext.
    assert (Eq : c' / total' * 100 == c / total * 100).
    { rewrite HT, Hc. field. split; lra. }
    now rewrite Eq.
Qed.

Lemma count_within_80_scaled (total total' : Q) (col col' : list Q) :
  total' == k * total ->
  Forall2 (fun c c' => c' == k * c) col col' ->
  forall acc acc', acc' == k * acc ->
    count_within_80 total' acc' col' = count_within_80 total acc col.
Proof.
  intros HT. induction 1 as [|x x' col col' Hx _ IH]; intros acc acc' Hacc.
  - reflexivity.
  - rewrite !count_within_80_cons.
    assert (Hacc' : acc' + x' == k * (acc + x)) by (rewrite Hacc, Hx; ring).
    rewrite (within_80_scaled total total' (acc + x) (acc' + x') HT Hacc').
    f_equal. now apply IH.
Qed.

Lemma Qsum_scaled (col col' : list Q) :
  Forall2 (fun c c' => c' == k * c) col col' -> Qsum col' == k * Qsum col.
Proof.
  induction 1 as [|x x' col col' Hx _ IH]; simpl; [ring|].
  rewrite Hx, IH. ring.
Qed.

Context {A : Type} (key : A -> Q).

Lemma insert_desc_scaled (x x' : A) (l l' : list A) :
  key x' == k * key x ->
  scaled_rows k key l l' ->
  scaled_rows k key (insert_desc key x l) (insert_desc key x' l').
Proof.
  intros Hx. induction 1 as [|y y' l l' Hy Hl IH]; simpl.
  - repeat constructor. exact Hx.
  - rewrite (Qle_bool_ext (key y') (key x') (key y) (key x))
      by (rewrite Hx, Hy; split; intros; nra).
    destruct (Qle_bool (key y) (key x)).
    + repeat constructor; assumption.
    + constructor; assumption.
Qed.

Lemma sort_values_desc_scaled (l l' : list A) :
  scaled_rows k key l l' ->
  scaled_rows k key (sort_values_desc key l) (sort_values_desc key l').
Proof.
  induction 1 as [|x x' l l' Hx _ IH]; simpl.
  - constructor.
  - now apply insert_desc_scaled.
Qed.

Lemma scaled_rows_keys (l l' : list A) :
  scaled_rows k key l l' ->
  Forall2 (fun c c' => c' == k * c) (map key l) (map key l').
Proof. induction 1; simpl; constructor; auto. Qed.

End Rescaling.

Section Invariance.

Lemma scaled_rows_refl {A : Type} (key : A -> Q) (l : list A) :
  scaled_rows 1 key l l.
Proof. induction l; constructor; [ring|assumption]. Qed.

Lemma scaled_rows_trans {A : Type} (key : A -> Q) (l1 l2 l3 : list A) :
  scaled_rows 1 key l1 l2 -> scaled_rows 1 key l2 l3 -> scaled_rows 1 key l1 l3.
Proof.
  intros H12. revert l3. induction H12 as [|a b l1 l2 Hab _ IH]; intros l3 H23.
  - inversion H23. constructor.
  - inversion H23 as [|? c ? l3' Hbc H23']; subst.
    constructor; [rewrite Hbc, Hab; ring|now apply IH].
Qed.

(** Two insertions commute, up to the order of rows of equal key. *)
Lemma insert_desc_comm {A : Type} (key : A -> Q) (x y : A) (l : list A) :
  scaled_rows 1 key (insert_desc key x (insert_desc key y l))
                    (insert_desc key y (insert_desc key x l)).
Proof.
  induction l as [|z l IH]; simpl.
  - destruct (Qle_bool (key y) (key x)) eqn:Eyx,
             (Qle_bool (key x) (key y)) eqn:Exy.
    + apply Qle_bool_iff in Eyx, Exy.
      repeat constructor; lra.
    + apply scaled_rows_refl.
    + apply scaled_rows_refl.
    + exfalso. destruct (Qlt_le_dec (key x) (key y)) as [H|H].
      * assert (Qle_bool (key x) (key y) = true)
          by (apply Qle_bool_iff; lra). congruence.
      * apply Qle_bool_iff in H. congruence.
  - destruct (Qle_bool (key z) (key y)) eqn:Ezy,
             (Qle_bool (key z) (key x)) eqn:Ezx; simpl;
      rewrite ?Ezy, ?Ezx.
    + destruct (Qle_bool (key y) (key x)) eqn:Eyx,
               (Qle_bool (key x) (key y)) eqn:Exy; simpl; rewrite ?Ezy, ?Ezx.
      * apply Qle_bool_iff in Eyx, Exy.
        constructor; [lra|]. constructor; [lra|]. apply scaled_rows_refl.
      * apply scaled_rows_refl.
      * apply scaled_rows_refl.
      * exfalso. destruct (Qlt_le_dec (key x) (key y)) as [H|H].
        -- assert (Qle_bool (key x) (key y) = true)
             by (apply Qle_bool_iff; lra). congruence.
        -- apply Qle_bool_iff in H. congruence.
    + assert (Eyx : Qle_bool (key y) (key x) = false).
      { destruct (Qle_bool (key y) (key x)) eqn:E; [|reflexivity].
        apply Qle_bool_iff in E, Ezy.
        assert (Qle_bool (key z) (key x) = true)
          by (apply Qle_bool_iff; lra). congruence. }
      rewrite ?Eyx; simpl; rewrite ?Ezx, ?Ezy. apply scaled_rows_refl.
    + assert (Exy : Qle_bool (key x) (key y) = false).
      { destruct (Qle_bool (key x) (key y)) eqn:E; [|reflexivity].
        apply Qle_bool_iff in E, Ezx.
        assert (Qle_bool (key z) (key y) = true)
          by (apply Qle_bool_iff; lra). congruence. }
      rewrite ?Exy; simpl; rewrite ?Ezx, ?Ezy. apply scaled_rows_refl.
    + constructor; [ring|exact IH].
Qed.

Lemma sort_values_desc_perm {A : Type} (key : A -> Q) (l l' : list A) :
  Permutation l l' ->
  scaled_rows 1 key (sort_values_desc key l) (sort_values_desc key l').
Proof.
  induction 1 as [|x l l' _ IH|x y l|l l' l'' _ IH1 _ IH2]; simpl.
  - constructor.
  - apply insert_desc_scaled; [lra|ring|exact IH].
  - apply insert_desc_comm.
  - eapply scaled_rows_trans; eauto.
Qed.

(** The analysis depends on the sorted table only through its spends, and
    not on their common scale. *)
Lemma spend_concentration_analysis_scaled (k : Q)
    (data data' : list ScoredSupplier) :
  0 < k ->
  scaled_rows k spend_key (sort_values_desc spend_key data)
                          (sort_values_desc spend_key data') ->
  spend_concentration_analysis data' = spend_concentration_analysis data.
Proof.
  intros Hk Hrows.
  assert (Hcount :
    pareto_80_supplier_count (spend_concentration_analysis data')
    = pareto_80_supplier_count (spend_concentration_analysis data)).
  { rewrite !pareto_80_supplier_count_unfold.
    pose proof (scaled_rows_keys k spend_key _ _ Hrows) as Hcols.
    apply (count_within_80_scaled k Hk); [|exact Hcols|ring].
    now apply Qsum_scaled. }
  assert (Hlen : length (sort_values_desc spend_key data')
                 = length (sort_values_desc spend_key data))
    by (symmetry; eapply Forall2_length; exact Hrows).
  unfold spend_concentration_analysis in *. fold spend_key in *.
  cbn [pareto_80_supplier_count] in Hcount.
  rewrite Hcount. unfold len. now rewrite Hlen.
Qed.

End Invariance.

(** X13: the Pareto analysis does not depend on the order of the rows:
    a reordered table gives the same count and the same percentage, for
    every table (whatever the sign of its spends and of its total). *)
Theorem spend_concentration_analysis_row_order
    (data data' : list ScoredSupplier) :
  Permutation data data' ->
  spend_concentration_analysis data' = spend_concentration_analysis data.
Proof.
  intros Hperm. apply (spend_concentration_analysis_scaled 1); [lra|].
  now apply sort_values_desc_perm.
Qed.

Lemma spend_concentration_analysis_row_order_witness :
  spend_concentration_analysis [spend_row 50; spend_row 40; spend_row 10]
  = spend_concentration_analysis [spend_row 10; spend_row 50; spend_row 40].
Proof.
  apply spend_concentration_analysis_row_order.
  apply (perm_trans (perm_swap _ _ _)). apply perm_skip. apply perm_swap.
Defined.

(** X14: the Pareto analysis does not depend on the unit of the spends:
    multiplying every annual spend by the same positive factor leaves the
    count and the percentage unchanged. *)
Theorem spend_concentration_analysis_unit (k : Q)
    (data : list ScoredSupplier) :
  0 < k ->
  spend_concentration_analysis (map (scale_spend k) data)
  = spend_concentration_analysis data.
Proof.
  intros Hk. apply (spend_concentration_analysis_scaled k); [exact Hk|].
  apply (sort_values_desc_scaled k Hk).
  induction data as [|row data IH]; simpl; constructor; [reflexivity|exact IH].
Qed.

Lemma spend_concentration_analysis_unit_witness :
  spend_concentration_analysis
    (map (scale_spend 1000) [spend_row 10; spend_row 50; spend_row 40])
  = spend_concentration_analysis [spend_row 10; spend_row 50; spend_row 40].
Proof.
  apply spend_concentration_analysis_unit. lra.
Defined.

Section ZeroTotal.

Lemma within_80_zero_total (total c : Q) :
  total == 0 -> within_80 total c = Qlt_bool c 0.
Proof.
  intros Ht. unfold within_80, np_div.
  apply Qeq_bool_iff in Ht. rewrite Ht.
  unfold Qlt_bool.
  destruct (Qle_bool c 0) eqn:E1, (Qle_bool 0 c) eqn:E2; simpl; try reflexivity.
  exfalso. destruct (Qlt_le_dec c 0) as [H|H].
  - assert (Qle_bool c 0 = true) by (apply Qle_bool_iff; lra). congruence.
  - apply Qle_bool_iff in H. congruence.
Qed.

Lemma Qlt_bool_false (a b : Q) : b <= a -> Qlt_bool a b = false.
Proof. intros H. unfold Qlt_bool. apply Qle_bool_iff in H. now rewrite H. Qed.

Context {A : Type} (key : A -> Q).

(** The running sums of a table sorted by descending key stay
    non-negative as long as the whole sum does. *)
Lemma count_within_80_zero_total (total : Q) (l : list A) :
  total == 0 ->
  descending key l ->
  forall acc, 0 <= acc -> 0 <= acc + Qsum (map key l) ->
    count_within_80 total acc (map key l) = 0%nat.
Proof.
  intros Ht. induction 1 as [|x l Hl IH Hx]; intros acc Hacc Hsum;
    [reflexivity|].
  simpl map. rewrite count_within_80_cons, within_80_zero_total by exact Ht.
  simpl in Hsum.
  assert (Hc : 0 <= acc + key x).
  { destruct (Qlt_le_dec (key x) 0) as [Hneg|Hpos]; [|lra].
    assert (Qsum (map key l) <= 0); [|lra].
    apply Qsum_nonpos, Forall_map.
    eapply List.Forall_impl; [|exact Hx]. intros b Hb. cbv beta in *. lra. }
  rewrite Qlt_bool_false by exact Hc. simpl.
  apply IH; [exact Hc|lra].
Qed.

End ZeroTotal.

(** X15: on a non-empty table whose spends add up to zero (all zero, or
    cancelling) the Pareto count is 0 and the reported percentage of
    suppliers is 0: no cumulative share, a division by the zero total,
    compares as within 80. *)
Theorem pareto_count_zero_total (data : list ScoredSupplier) :
  data <> [] ->
  Qsum (map (fun row => Annual_Spend (supplier row)) data) == 0 ->
  pareto_80_supplier_count (spend_concentration_analysis data) = 0%nat /\
  exists q,
    pareto_80_suppliers_pct (spend_concentration_analysis data) = Finite q /\
    q == 0.
Proof.
  intros Hne Ht.
  assert (Hcount :
    pareto_80_supplier_count (spend_concentration_analysis data) = 0%nat).
  { rewrite pareto_80_supplier_count_unfold. fold spend_key in Ht.
    apply count_within_80_zero_total.
    - now rewrite Qsum_sort_values_desc.
    - apply sort_values_desc_descending.
    - lra.
    - rewrite Qsum_sort_values_desc, Ht. lra. }
  split; [exact Hcount|].
  assert (Hn : 0 < len (sort_values_desc spend_key data)).
  { apply len_pos. intros E. apply (f_equal (@length _)) in E.
    rewrite length_sort_values_desc in E.
    destruct data; [congruence|discriminate]. }
  exists (inject_Z (Z.of_nat 0) / len (sort_values_desc spend_key data) * 100).
  split.
  - unfold spend_concentration_analysis in *. fold spend_key in *.
    cbn [pareto_80_supplier_count pareto_80_suppliers_pct] in *.
    rewrite Hcount. unfold np_div.
    destruct (Qeq_bool (len (sort_values_desc spend_key data)) 0) eqn:E.
    + apply Qeq_bool_iff in E. lra.
    + reflexivity.
  - simpl inject_Z. field. lra.
Qed.

Lemma pareto_count_zero_total_witness :
  pareto_80_supplier_count
    (spend_concentration_analysis [spend_row (-5); spend_row 0; spend_row 5])
  = 0%nat /\
  exists q,
    pareto_80_suppliers_pct
      (spend_concentration_analysis [spend_row (-5); spend_row 0; spend_row 5])
    = Finite q /\
    q == 0.
Proof.
  apply pareto_count_zero_total.
  - discriminate.
  - reflexivity.
Defined.

(** * Properties of the segment profiles *)

Section Profiles.

Lemma segment_profile_analysis_items (data : list ScoredSupplier) :
  segment_profile_analysis data
  = flat_map (profile_item data)
      [Strategic; Critical; Operational; Transactional].
Proof.
  unfold segment_profile_analysis, profile_item. simpl.
  destruct (0 <? length (segment_rows data Strategic))%nat,
           (0 <? length (segment_rows data Critical))%nat,
           (0 <? length (segment_rows data Operational))%nat,
           (0 <? length (segment_rows data Transactional))%nat;
    reflexivity.
Qed.

Lemma Segment_eqb_eq (a b : Segment) : Segment_eqb a b = true <-> a = b.
Proof. destruct a, b; simpl; split; congruence. Qed.

Lemma In_segment_rows (data : list ScoredSupplier) (s : Segment)
    (row : ScoredSupplier) :
  In row (segment_rows data s) <-> In row data /\ Classification row = s.
Proof.
  unfold segment_rows. rewrite filter_In, Segment_eqb_eq. reflexivity.
Qed.

Lemma In_segment_profile_analysis (data : list ScoredSupplier)
    (s : Segment) (p : SegmentProfile) :
  In (s, p) (segment_profile_analysis data) <->
  (0 < length (segment_rows data s))%nat /\
  p = segment_profile data (segment_rows data s).
Proof.
  rewrite segment_profile_analysis_items, in_flat_map. unfold profile_item.
  split.
  - intros (s' & _ & Hin).
    destruct (0 <? length (segment_rows data s'))%nat eqn:E; [|destruct Hin].
    destruct Hin as [[= <- <-]|[]]. apply Nat.ltb_lt in E. auto.
  - intros [Hlen ->]. exists s. split; [destruct s; simpl; tauto|].
    apply Nat.ltb_lt in Hlen. rewrite Hlen. now left.
Qed.

Lemma segment_rows_partition (data : list ScoredSupplier) :
  (length (segment_rows data Strategic) + length (segment_rows data Critical)
   + length (segment_rows data Operational)
   + length (segment_rows data Transactional))%nat = length data.
Proof.
  unfold segment_rows. induction data as [|row data IH]; [reflexivity|].
  simpl. destruct (Classification row); simpl; lia.
Qed.

Lemma profile_item_count (data : list ScoredSupplier) (s : Segment) :
  list_sum (map (fun item => count (snd item)) (profile_item data s))
  = length (segment_rows data s).
Proof.
  unfold profile_item.
  destruct (0 <? length (segment_rows data s))%nat eqn:E; simpl; [lia|].
  apply Nat.ltb_ge in E. lia.
Qed.

End Profiles.

(** X16: the profiles partition the table.  A segment has a profile
    exactly when some row carries its label; the profile's count is the
    number of those rows (never 0), and the counts of all profiles add up
    to the number of rows of the table. *)
Theorem segment_profile_analysis_counts (data : list ScoredSupplier) :
  (forall s, (exists p, In (s, p) (segment_profile_analysis data)) <->
             (exists row, In row data /\ Classification row = s)) /\
  (forall s p, In (s, p) (segment_profile_analysis data) ->
     count p = length (segment_rows data s) /\ (0 < count p)%nat) /\
  list_sum (map (fun item => count (snd item)) (segment_profile_analysis data))
  = length data.
Proof.
  split; [|split].
  - intros s. split.
    + intros [p Hp]. apply In_segment_profile_analysis in Hp as [Hlen _].
      destruct (segment_rows data s) as [|row rows] eqn:E; [simpl in Hlen; lia|].
      exists row. apply In_segment_rows. rewrite E. now left.
    + intros (row & Hrow & Hs).
      exists (segment_profile data (segment_rows data s)).
      apply In_segment_profile_analysis. split; [|reflexivity].
      assert (Hin : In row (segment_rows data s))
        by (apply In_segment_rows; auto).
      destruct (segment_rows data s); [destruct Hin|simpl; lia].
  - intros s p Hp. apply In_segment_profile_analysis in Hp as [Hlen ->].
    simpl. auto.
  - rewrite segment_profile_analysis_items. simpl flat_map.
    rewrite app_nil_r, !map_app, !list_sum_app, !profile_item_count.
    pose proof (segment_rows_partition data). lia.
Qed.

Section Shares.

Lemma np_div_finite (a b : Q) : ~ b == 0 -> np_div a b = Finite (a / b).
Proof.
  intros Hb. unfold np_div. destruct (Qeq_bool b 0) eqn:E; [|reflexivity].
  apply Qeq_bool_iff in E. contradiction.
Qed.

Lemma segment_spend_partition (data : list ScoredSupplier) :
  Qsum (map spend_key (segment_rows data Strategic))
  + Qsum (map spend_key (segment_rows data Critical))
  + Qsum (map spend_key (segment_rows data Operational))
  + Qsum (map spend_key (segment_rows data Transactional))
  == Qsum (map spend_key data).
Proof.
  unfold segment_rows. induction data as [|row data IH]; [reflexivity|].
  simpl. destruct (Classification row); simpl; rewrite <- IH; ring.
Qed.

Lemma profile_item_share (data : list ScoredSupplier) (s : Segment) :
  ~ Qsum (map spend_key data) == 0 ->
  exists shares,
    map (fun item => spend_concentration (snd item)) (profile_item data s)
    = map Finite shares /\
    Qsum shares
    == Qsum (map spend_key (segment_rows data s)) / Qsum (map spend_key data).
Proof.
  intros Ht. unfold profile_item.
  destruct (0 <? length (segment_rows data s))%nat eqn:E.
  - exists [Qsum (map spend_key (segment_rows data s))
            / Qsum (map spend_key data)].
    split; [|simpl; ring].
    simpl. fold spend_key. now rewrite np_div_finite.
  - exists []. split; [reflexivity|].
    apply Nat.ltb_ge in E.
    destruct (segment_rows data s); [|simpl in E; lia].
    simpl. field. exact Ht.
Qed.

End Shares.

(** X17: when the total spend is not zero the spend concentrations of the
    profiles are finite numbers that add up to 1: the segments share out
    the whole spend. *)
Theorem segment_profile_analysis_spend_shares (data : list ScoredSupplier) :
  ~ Qsum (map (fun row => Annual_Spend (supplier row)) data) == 0 ->
  exists shares,
    map (fun item => spend_concentration (snd item))
        (segment_profile_analysis data)
    = map Finite shares /\
    Qsum shares == 1.
Proof.
  intros Ht. fold spend_key in Ht.
  destruct (profile_item_share data Strategic Ht) as (s1 & E1 & Q1).
  destruct (profile_item_share data Critical Ht) as (s2 & E2 & Q2).
  destruct (profile_item_share data Operational Ht) as (s3 & E3 & Q3).
  destruct (profile_item_share data Transactional Ht) as (s4 & E4 & Q4).
  exists (s1 ++ s2 ++ s3 ++ s4). split.
  - rewrite segment_profile_analysis_items. simpl flat_map.
    rewrite app_nil_r, !map_app, E1, E2, E3, E4. reflexivity.
  - rewrite !Qsum_app, Q1, Q2, Q3, Q4.
    pose proof (segment_spend_partition data) as Hp.
    set (T := Qsum (map spend_key data)) in *.
    assert (E : Qsum (map spend_key (segment_rows data Strategic)) / T
                + (Qsum (map spend_key (segment_rows data Critical)) / T
                   + (Qsum (map spend_key (segment_rows data Operational)) / T
                      + Qsum (map spend_key (segment_rows data Transactional))
                        / T))
                == (Qsum (map spend_key (segment_rows data Strategic))
                    + Qsum (map spend_key (segment_rows data Critical))
                    + Qsum (map spend_key (segment_rows data Operational))
                    + Qsum (map spend_key (segment_rows data Transactional)))
                   / T) by (field; exact Ht).
    rewrite E, Hp. field. exact Ht.
Qed.

Lemma segment_profile_analysis_spend_shares_witness :
  exists shares,
    map (fun item => spend_concentration (snd item))
        (segment_profile_analysis
           [segment_row Strategic 90 50; segment_row Operational 40 30;
            segment_row Operational 35 20])
    = map Finite shares /\
    Qsum shares == 1.
Proof.
  apply segment_profile_analysis_spend_shares. simpl. lra.
Defined.

Section Means.

Lemma Qsum_le_bound (l : list Q) (c : Q) :
  (forall y, In y l -> y <= c) -> Qsum l <= c * len l.
Proof.
  induction l as [|x l IH]; intros H.
  - rewrite len_nil. simpl. lra.
  - rewrite len_cons. simpl.
    specialize (IH (fun y Hy => H y (or_intror Hy))).
    pose proof (H x (or_introl eq_refl)). lra.
Qed.

Lemma Qsum_ge_bound (l : list Q) (c : Q) :
  (forall y, In y l -> c <= y) -> c * len l <= Qsum l.
Proof.
  induction l as [|x l IH]; intros H.
  - rewrite len_nil. simpl. lra.
  - rewrite len_cons. simpl.
    specialize (IH (fun y Hy => H y (or_intror Hy))).
    pose proof (H x (or_introl eq_refl)). lra.
Qed.

Lemma column_mean_le (l : list Q) (c : Q) :
  l <> [] -> (forall y, In y l -> y <= c) -> column_mean l <= c.
Proof.
  intros Hne H. unfold column_mean.
  apply Qle_shift_div_r; [now apply len_pos|now apply Qsum_le_bound].
Qed.

Lemma column_mean_ge (l : list Q) (c : Q) :
  l <> [] -> (forall y, In y l -> c <= y) -> c <= column_mean l.
Proof.
  intros Hne H. unfold column_mean.
  apply Qle_shift_div_l; [now apply len_pos|now apply Qsum_ge_bound].
Qed.

Lemma exists_largest (l : list Q) :
  l <> [] -> exists m, In m l /\ forall y, In y l -> y <= m.
Proof.
  induction l as [|x l IH]; [congruence|]. intros _.
  destruct l as [|y l'].
  - exists x. split; [now left|]. intros y [<-|[]]. apply Qle_refl.
  - destruct IH as (m & Hm & Hmax); [discriminate|].
    destruct (Qlt_le_dec m x) as [Hlt|Hle].
    + exists x. split; [now left|].
      intros z [<-|Hz]; [apply Qle_refl|]. specialize (Hmax z Hz). lra.
    + exists m. split; [now right|].
      intros z [<-|Hz]; [exact Hle|auto].
Qed.

Lemma exists_smallest (l : list Q) :
  l <> [] -> exists m, In m l /\ forall y, In y l -> m <= y.
Proof.
  induction l as [|x l IH]; [congruence|]. intros _.
  destruct l as [|y l'].
  - exists x. split; [now left|]. intros y [<-|[]]. apply Qle_refl.
  - destruct IH as (m & Hm & Hmin); [discriminate|].
    destruct (Qlt_le_dec x m) as [Hlt|Hle].
    + exists x. split; [now left|].
      intros z [<-|Hz]; [apply Qle_refl|]. specialize (Hmin z Hz). lra.
    + exists m. split; [now right|].
      intros z [<-|Hz]; [exact Hle|auto].
Qed.

(** A column lying entirely above another has the larger mean. *)
Lemma column_mean_lt (low high : list Q) :
  low <> [] -> high <> [] ->
  (forall x y, In x high -> In y low -> y < x) ->
  column_mean low < column_mean high.
Proof.
  intros Hlow Hhigh H.
  destruct (exists_largest low Hlow) as (m & Hm & Hmax).
  destruct (exists_smallest high Hhigh) as (n & Hn & Hmin).
  pose proof (column_mean_le low m Hlow Hmax).
  pose proof (column_mean_ge high n Hhigh Hmin).
  pose proof (H n m Hn Hm). lra.
Qed.

End Means.

(** X18: on a table classified by [classify_suppliers] the average scores
    of the segment profiles are strictly ordered like the segments: a more
    strategic segment has a strictly higher average score. *)
Theorem segment_profile_analysis_score_order
    (self : SupplierScoringModel) (data : list Supplier) :
  suppliers_data self = Some data ->
  Forall (scorable self) data ->
  exists out,
    classify_suppliers self = Ok out /\
    forall s1 p1 s2 p2,
      In (s1, p1) (segment_profile_analysis out) ->
      In (s2, p2) (segment_profile_analysis out) ->
      (segment_rank s2 < segment_rank s1)%nat ->
      avg_score p2 < avg_score p1.
Proof.
  intros Hdata Hall.
  destruct (classify_suppliers_returns self data Hdata Hall) as [out Hout].
  destruct (classify_suppliers_inv self data out Hdata Hout) as [_ _ Hlab].
  exists out. split; [exact Hout|].
  intros s1 p1 s2 p2 H1 H2 Hrank.
  apply In_segment_profile_analysis in H1 as [Hlen1 ->].
  apply In_segment_profile_analysis in H2 as [Hlen2 ->].
  cbn [avg_score segment_profile].
  apply column_mean_lt.
  - destruct (segment_rows out s2); [simpl in Hlen2; lia|discriminate].
  - destruct (segment_rows out s1); [simpl in Hlen1; lia|discriminate].
  - intros x y Hx Hy.
    apply in_map_iff in Hx as (a & <- & Ha).
    apply in_map_iff in Hy as (b & <- & Hb).
    apply In_segment_rows in Ha as [Ha Hsa].
    apply In_segment_rows in Hb as [Hb Hsb].
    destruct (Qlt_le_dec (Score b) (Score a)) as [Hlt|Hle]; [exact Hlt|].
    exfalso.
    assert (Hmono : (segment_rank (Classification a)
                     <= segment_rank (Classification b))%nat).
    { rewrite (Hlab a Ha), (Hlab b Hb).
      apply classification_of_mono. now apply percentile_mono. }
    rewrite Hsa, Hsb in Hmono. lia.
Qed.

Lemma segment_profile_analysis_score_order_witness :
  exists out,
    classify_suppliers two_row_model = Ok out /\
    forall s1 p1 s2 p2,
      In (s1, p1) (segment_profile_analysis out) ->
      In (s2, p2) (segment_profile_analysis out) ->
      (segment_rank s2 < segment_rank s1)%nat ->
      avg_score p2 < avg_score p1.
Proof.
  apply (segment_profile_analysis_score_order two_row_model
           [supplier_X; supplier_Y] eq_refl two_row_model_scorable).
Defined.

(** * Properties of the business-unit breakdown *)

Section Units.

Lemma unique_In (l : list string) (k : string) : In k (unique l) <-> In k l.
Proof.
  induction l as [|x l IH]; simpl; [reflexivity|].
  rewrite filter_In, IH, negb_true_iff, String.eqb_neq.
  destruct (String.eqb_spec k x) as [->|Hne].
  - split; intros _; now left.
  - split.
    + intros [H|[H _]]; auto.
    + intros [H|H]; [now left|]. right. auto.
Qed.

Lemma unique_NoDup (l : list string) : List.NoDup (unique l).
Proof.
  induction l as [|x l IH]; simpl; constructor.
  - rewrite filter_In, negb_true_iff, String.eqb_neq. intros [_ H]. now apply H.
  - now apply List.NoDup_filter.
Qed.

Lemma list_sum_map_add {A : Type} (f g : A -> nat) (l : list A) :
  list_sum (map (fun u => (f u + g u)%nat) l)
  = (list_sum (map f l) + list_sum (map g l))%nat.
Proof. induction l as [|x l IH]; simpl; lia. Qed.

Lemma Qsum_map_add {A : Type} (f g : A -> Q) (l : list A) :
  Qsum (map (fun u => f u + g u) l) == Qsum (map f l) + Qsum (map g l).
Proof. induction l as [|x l IH]; simpl; [ring|rewrite IH; ring]. Qed.

Lemma matches_none (U : list string) (k : string) :
  ~ In k U ->
  list_sum (map (fun u => if String.eqb k u then 1 else 0)%nat U) = 0%nat.
Proof.
  induction U as [|u U IH]; intros Hk; [reflexivity|]. simpl.
  destruct (String.eqb_spec k u) as [->|Hne]; [exfalso; apply Hk; now left|].
  apply IH. intros H. apply Hk. now right.
Qed.

Lemma matches_once (U : list string) (k : string) :
  List.NoDup U -> In k U ->
  list_sum (map (fun u => if String.eqb k u then 1 else 0)%nat U) = 1%nat.
Proof.
  induction 1 as [|u U Hu _ IH]; intros Hk; [destruct Hk|]. simpl.
  destruct (String.eqb_spec k u) as [->|Hne].
  - now rewrite matches_none.
  - destruct Hk as [->|Hk]; [congruence|]. now apply IH.
Qed.

Lemma weighted_none (U : list string) (k : string) (q : Q) :
  ~ In k U ->
  Qsum (map (fun u => if String.eqb k u then q else 0) U) == 0.
Proof.
  induction U as [|u U IH]; intros Hk; [reflexivity|]. simpl.
  destruct (String.eqb_spec k u) as [->|Hne]; [exfalso; apply Hk; now left|].
  rewrite IH; [ring|]. intros H. apply Hk. now right.
Qed.

Lemma weighted_once (U : list string) (k : string) (q : Q) :
  List.NoDup U -> In k U ->
  Qsum (map (fun u => if String.eqb k u then q else 0) U) == q.
Proof.
  induction 1 as [|u U Hu _ IH]; intros Hk; [destruct Hk|]. simpl.
  destruct (String.eqb_spec k u) as [->|Hne].
  - rewrite weighted_none by exact Hu. ring.
  - destruct Hk as [->|Hk]; [congruence|]. rewrite IH by exact Hk. ring.
Qed.

Lemma unit_rows_lengths (U : list string) (data : list ScoredSupplier) :
  List.NoDup U ->
  (forall row, In row data -> In (Business_Unit (supplier row)) U) ->
  list_sum (map (fun u => length (unit_rows data u)) U) = length data.
Proof.
  intros HU. induction data as [|row data IH]; intros Hcover.
  - simpl. clear. induction U as [|u U IHU]; [reflexivity|exact IHU].
  - rewrite (map_ext _ (fun u =>
       ((if String.eqb (Business_Unit (supplier row)) u then 1 else 0)
        + length (unit_rows data u))%nat)).
    + rewrite list_sum_map_add, matches_once, IH; simpl; auto;
        try (intros r Hr; apply Hcover; now right);
        apply Hcover; now left.
    + intros u. unfold unit_rows. simpl.
      destruct (String.eqb (Business_Unit (supplier row)) u); reflexivity.
Qed.

Lemma unit_rows_spends (U : list string) (data : list ScoredSupplier) :
  List.NoDup U ->
  (forall row, In row data -> In (Business_Unit (supplier row)) U) ->
  Qsum (map (fun u => Qsum (map spend_key (unit_rows data u))) U)
  == Qsum (map spend_key data).
Proof.
  intros HU. induction data as [|row data IH]; intros Hcover.
  - simpl. clear. induction U as [|u U IHU]; [reflexivity|].
    simpl. rewrite IHU. ring.
  - assert (E : Qsum (map (fun u => Qsum (map spend_key
                                            (unit_rows (row :: data) u))) U)
                == Qsum (map (fun u =>
                     (if String.eqb (Business_Unit (supplier row)) u
                      then spend_key row else 0)
                     + Qsum (map spend_key (unit_rows data u))) U)).
    { clear. induction U as [|u U IHU]; [reflexivity|].
      simpl. rewrite IHU. unfold unit_rows at 1. simpl.
      destruct (String.eqb (Business_Unit (supplier row)) u); simpl;
        unfold unit_rows; ring. }
    rewrite Qsum_map_add in E. rewrite E, weighted_once, IH.
    + simpl. reflexivity.
    + intros r Hr. apply Hcover. now right.
    + exact HU.
    + apply Hcover. now left.
Qed.

Lemma In_unit_rows (data : list ScoredSupplier) (bu : string)
    (row : ScoredSupplier) :
  In row (unit_rows data bu) <->
  In row data /\ Business_Unit (supplier row) = bu.
Proof.
  unfold unit_rows. rewrite filter_In, String.eqb_eq. reflexivity.
Qed.

Lemma In_business_unit_analysis (data : list ScoredSupplier)
    (bu : string) (m : UnitMetrics) :
  In (bu, m) (business_unit_analysis data) <->
  (exists row, In row data /\ Business_Unit (supplier row) = bu) /\
  m = unit_metrics (unit_rows data bu).
Proof.
  unfold business_unit_analysis. rewrite in_map_iff. split.
  - intros (u & [= <- <-] & Hu).
    apply unique_In, in_map_iff in Hu as (row & Hrow & Hin). eauto.
  - intros [(row & Hin & Hrow) ->]. exists bu. split; [reflexivity|].
    apply unique_In, in_map_iff. eauto.
Qed.

End Units.

(** X19: the business-unit breakdown partitions the table.  Its keys are
    the business units that occur in the table, each once; every unit has
    at least one supplier; the supplier counts of the units add up to the
    number of rows and their total spends to the total spend. *)
Theorem business_unit_analysis_partition (data : list ScoredSupplier) :
  List.NoDup (map fst (business_unit_analysis data)) /\
  (forall bu, In bu (map fst (business_unit_analysis data)) <->
     exists row, In row data /\ Business_Unit (supplier row) = bu) /\
  (forall bu m, In (bu, m) (business_unit_analysis data) ->
     total_suppliers m = length (unit_rows data bu) /\
     (0 < total_suppliers m)%nat) /\
  list_sum (map (fun item => total_suppliers (snd item))
              (business_unit_analysis data)) = length data /\
  Qsum (map (fun item => total_spend (snd item)) (business_unit_analysis data))
  == Qsum (map (fun row => Annual_Spend (supplier row)) data).
Proof.
  set (U := unique (map (fun row => Business_Unit (supplier row)) data)).
  assert (Hkeys : map fst (business_unit_analysis data) = U).
  { unfold business_unit_analysis. rewrite map_map. simpl. apply map_id. }
  assert (HU : List.NoDup U) by apply unique_NoDup.
  assert (Hcover : forall row, In row data ->
                     In (Business_Unit (supplier row)) U).
  { intros row Hrow. apply unique_In, in_map_iff. eauto. }
  split; [now rewrite Hkeys|]. split; [|split; [|split]].
  - intros bu. rewrite Hkeys. unfold U. rewrite unique_In, in_map_iff.
    split; intros (row & H1 & H2); eauto.
  - intros bu m Hm.
    apply In_business_unit_analysis in Hm as [(row & Hin & Hrow) ->].
    simpl. split; [reflexivity|].
    assert (Hr : In row (unit_rows data bu)) by (apply In_unit_rows; auto).
    destruct (unit_rows data bu); [destruct Hr|simpl; lia].
  - unfold business_unit_analysis. fold U. rewrite map_map. simpl.
    now apply unit_rows_lengths.
  - unfold business_unit_analysis. fold U. rewrite map_map. simpl.
    now apply unit_rows_spends.
Qed.

(** X20: within every business unit of the breakdown the percentages of
    the segment distribution add up to 100. *)
Theorem business_unit_analysis_distribution (data : list ScoredSupplier)
    (bu : string) (m : UnitMetrics) :
  In (bu, m) (business_unit_analysis data) ->
  Qsum (flat_map (fun s => match segment_distribution m s with
                           | Some pct => [pct]
                           | None => []
                           end)
          [Strategic; Critical; Operational; Transactional])
  == 100.
Proof.
  intros Hm.
  apply In_business_unit_analysis in Hm as [(row & Hin & Hrow) ->].
  assert (Hr : In row (unit_rows data bu)) by (apply In_unit_rows; auto).
  set (rows := unit_rows data bu) in *.
  assert (Hn : 0 < len rows).
  { apply len_pos. destruct rows; [destruct Hr|discriminate]. }
  cbn [segment_distribution unit_metrics].
  assert (Hone : forall s,
    Qsum (match segment_distribution_of rows s with
          | Some pct => [pct]
          | None => []
          end)
    == len (segment_rows rows s) / len rows * 100).
  { intros s. unfold segment_distribution_of.
    destruct (0 <? length (segment_rows rows s))%nat eqn:E.
    - simpl. unfold len. ring.
    - apply Nat.ltb_ge in E.
      destruct (segment_rows rows s); [|simpl in E; lia].
      rewrite len_nil. simpl. field. lra. }
  simpl flat_map. rewrite app_nil_r, !Qsum_app, !Hone.
  pose proof (segment_rows_partition rows) as Hp.
  assert (Hq : len (segment_rows rows Strategic)
               + len (segment_rows rows Critical)
               + len (segment_rows rows Operational)
               + len (segment_rows rows Transactional) == len rows).
  { unfold len. rewrite <- !inject_Z_plus, <- !Nat2Z.inj_add. now rewrite Hp. }
  set (a := len (segment_rows rows Strategic)) in *.
  set (b := len (segment_rows rows Critical)) in *.
  set (c := len (segment_rows rows Operational)) in *.
  set (d := len (segment_rows rows Transactional)) in *.
  assert (E : a / len rows * 100 + (b / len rows * 100
              + (c / len rows * 100 + d / len rows * 100))
              == (a + b + c + d) / len rows * 100) by (field; lra).
  rewrite E, Hq. field. lra.
Qed.

Lemma business_unit_analysis_distribution_witness :
  Qsum (flat_map
          (fun s =>
             match segment_distribution
                     (unit_metrics
                        (unit_rows
                           [unit_row "Business_Unit_A" Strategic 50;
                            unit_row "Business_Unit_B" Critical 30;
                            unit_row "Business_Unit_A" Operational 20]
                           "Business_Unit_A")) s with
             | Some pct => [pct]
             | None => []
             end)
          [Strategic; Critical; Operational; Transactional])
  == 100.
Proof.
  apply (business_unit_analysis_distribution
           [unit_row "Business_Unit_A" Strategic 50;
            unit_row "Business_Unit_B" Critical 30;
            unit_row "Business_Unit_A" Operational 20]
           "Business_Unit_A").
  left. reflexivity.
Defined.

(** * Properties of the top-supplier list *)

Section Rounding.

Lemma Qlt_bool_iff (a b : Q) : Qlt_bool a b = true <-> a < b.
Proof.
  unfold Qlt_bool. rewrite negb_true_iff. split.
  - intros H. destruct (Qlt_le_dec a b) as [?|Hle]; [assumption|].
    apply Qle_bool_iff in Hle. congruence.
  - intros H. destruct (Qle_bool b a) eqn:E; [|reflexivity].
    apply Qle_bool_iff in E. lra.
Qed.

Lemma Qfloor_fraction (q : Q) : 0 <= q - inject_Z (Qfloor q) < 1.
Proof.
  pose proof (Qfloor_le q). pose proof (Qlt_floor q) as Hlt.
  rewrite inject_Z_plus in Hlt. change (inject_Z 1) with 1 in Hlt. lra.
Qed.

(** The three cases of the rounding. *)
Lemma round_half_even_cases (q : Q) :
  let f := Qfloor q in
  let r := q - inject_Z f in
  (r < 1 # 2 /\ round_half_even q = f) \/
  (1 # 2 < r /\ round_half_even q = (f + 1)%Z) \/
  (r == 1 # 2 /\ round_half_even q = if Z.even f then f else (f + 1)%Z).
Proof.
  cbv zeta. unfold round_half_even.
  destruct (Qlt_bool (q - inject_Z (Qfloor q)) (1 # 2)) eqn:E1.
  - left. apply Qlt_bool_iff in E1. auto.
  - destruct (Qlt_bool (1 # 2) (q - inject_Z (Qfloor q))) eqn:E2.
    + right. left. apply Qlt_bool_iff in E2. auto.
    + right. right. split; [|reflexivity].
      destruct (Qlt_le_dec (q - inject_Z (Qfloor q)) (1 # 2)) as [H|H].
      * apply Qlt_bool_iff in H. congruence.
      * destruct (Qlt_le_dec (1 # 2) (q - inject_Z (Qfloor q))) as [H'|H'].
        -- apply Qlt_bool_iff in H'. congruence.
        -- now apply Qle_antisym.
Qed.

Lemma round_half_even_error (q : Q) :
  - (1 # 2) <= inject_Z (round_half_even q) - q <= 1 # 2.
Proof.
  pose proof (Qfloor_fraction q) as Hr.
  destruct (round_half_even_cases q) as [[H ->]|[[H ->]|[H ->]]].
  - lra.
  - rewrite inject_Z_plus. change (inject_Z 1) with 1. lra.
  - destruct (Z.even (Qfloor q)).
    + lra.
    + rewrite inject_Z_plus. change (inject_Z 1) with 1. lra.
Qed.

Lemma round_half_even_range (q : Q) :
  (Qfloor q <= round_half_even q <= Qfloor q + 1)%Z.
Proof.
  destruct (round_half_even_cases q) as [[_ ->]|[[_ ->]|[_ ->]]]; try lia.
  destruct (Z.even (Qfloor q)); lia.
Qed.

Lemma round_half_even_mono (q1 q2 : Q) :
  q1 <= q2 -> (round_half_even q1 <= round_half_even q2)%Z.
Proof.
  intros Hle. pose proof (Qfloor_resp_le q1 q2 Hle) as Hf.
  pose proof (round_half_even_range q1). pose proof (round_half_even_range q2).
  destruct (Z.eq_dec (Qfloor q1) (Qfloor q2)) as [E|Hne]; [|lia].
  destruct (round_half_even_cases q1) as [[H1 E1]|[[H1 E1]|[H1 E1]]];
    destruct (round_half_even_cases q2) as [[H2 E2]|[[H2 E2]|[H2 E2]]];
    rewrite E1, E2; rewrite E in *; try lia;
    try (exfalso; lra);
    destruct (Z.even (Qfloor q2)); lia.
Qed.

Lemma round2_mono (q1 q2 : Q) : q1 <= q2 -> round2 q1 <= round2 q2.
Proof.
  intros Hle. unfold round2.
  assert (H : (round_half_even (q1 * 100) <= round_half_even (q2 * 100))%Z)
    by (apply round_half_even_mono; lra).
  rewrite Zle_Qle in H.
  assert (E1 : inject_Z (round_half_even (q1 * 100)) / 100
               == inject_Z (round_half_even (q1 * 100)) * (1 # 100))
    by reflexivity.
  assert (E2 : inject_Z (round_half_even (q2 * 100)) / 100
               == inject_Z (round_half_even (q2 * 100)) * (1 # 100))
    by reflexivity.
  lra.
Qed.

Lemma round2_error (q : Q) : - (1 # 200) <= round2 q - q <= 1 # 200.
Proof.
  unfold round2. pose proof (round_half_even_error (q * 100)) as H.
  assert (E : inject_Z (round_half_even (q * 100)) / 100
              == inject_Z (round_half_even (q * 100)) * (1 # 100))
    by reflexivity.
  lra.
Qed.

End Rounding.

Section TopRows.

Context {A : Type} (key : A -> Q).

Lemma insert_desc_permutation (x : A) (l : list A) :
  Permutation (insert_desc key x l) (x :: l).
Proof.
  induction l as [|y l IH]; simpl; [reflexivity|].
  destruct (Qle_bool (key y) (key x)); [reflexivity|].
  rewrite IH. apply perm_swap.
Qed.

Lemma sort_values_desc_permutation (l : list A) :
  Permutation (sort_values_desc key l) l.
Proof.
  induction l as [|x l IH]; simpl; [reflexivity|].
  rewrite insert_desc_permutation. now apply perm_skip.
Qed.

Lemma descending_app (l1 l2 : list A) :
  descending key (l1 ++ l2) ->
  descending key l1 /\
  forall a b, In a l1 -> In b l2 -> key b <= key a.
Proof.
  induction l1 as [|x l1 IH]; simpl; intros H.
  - split; [constructor|]. intros a b [].
  - inversion H as [|? ? Hl Hx]; subst. destruct (IH Hl) as [Hd Hab].
    split.
    + constructor; [exact Hd|].
      apply List.Forall_forall. intros a Ha.
      rewrite List.Forall_forall in Hx. apply Hx. apply in_or_app. now left.
    + intros a b [<-|Ha] Hb; [|now apply Hab].
      rewrite List.Forall_forall in Hx. apply Hx. apply in_or_app. now right.
Qed.

(** What [nlargest] selects. *)
Lemma nlargest_spec (n : Z) (data : list A) :
  Permutation (nlargest n key data
               ++ skipn (Z.to_nat n) (sort_values_desc key data)) data /\
  length (nlargest n key data) = Nat.min (Z.to_nat n) (length data) /\
  descending key (nlargest n key data) /\
  forall a b,
    In a (nlargest n key data) ->
    In b (skipn (Z.to_nat n) (sort_values_desc key data)) ->
    key b <= key a.
Proof.
  unfold nlargest.
  pose proof (sort_values_desc_descending key data) as Hd.
  rewrite <- (firstn_skipn (Z.to_nat n) (sort_values_desc key data)) in Hd.
  apply descending_app in Hd as [Hd Hab].
  split; [|split; [|split]].
  - rewrite firstn_skipn. apply sort_values_desc_permutation.
  - rewrite length_firstn, length_sort_values_desc. reflexivity.
  - exact Hd.
  - exact Hab.
Qed.

End TopRows.

(** X21: [identify_top_suppliers] returns the rows of the [n_top] best
    scores: the table splits into the selected rows and the rest, the
    list has min(n_top, number of rows) entries (none for n_top <= 0), the
    selected rows are in descending order of score and no row left out has
    a higher score than a selected one. *)
Theorem identify_top_suppliers_selection
    (suppliers_data : list ScoredSupplier) (n_top : Z) :
  exists top rest,
    Permutation (top ++ rest) suppliers_data /\
    identify_top_suppliers suppliers_data n_top = map select_round top /\
    length (identify_top_suppliers suppliers_data n_top)
    = Nat.min (Z.to_nat n_top) (length suppliers_data) /\
    descending Score top /\
    (forall a b, In a top -> In b rest -> Score b <= Score a).
Proof.
  destruct (nlargest_spec Score n_top suppliers_data)
    as (Hperm & Hlen & Hd & Hab).
  exists (nlargest n_top Score suppliers_data),
         (skipn (Z.to_nat n_top) (sort_values_desc Score suppliers_data)).
  split; [exact Hperm|]. split; [reflexivity|].
  split; [|split; assumption].
  unfold identify_top_suppliers. now rewrite length_map.
Qed.

Lemma select_round_descending (rows : list ScoredSupplier) :
  descending Score rows ->
  StronglySorted (fun t u => top_Score u <= top_Score t)
    (map select_round rows).
Proof.
  induction 1 as [|row rows _ IH Hrow]; simpl; constructor; [exact IH|].
  apply Forall_map. eapply List.Forall_impl; [|exact Hrow].
  intros b Hb. cbn [top_Score select_round]. now apply round2_mono.
Qed.

(** X22: the rounding to two decimals keeps the list in order: the
    rounded scores of the returned list are still descending, and each is
    within 0.005 of the score of the row it comes from. *)
Theorem identify_top_suppliers_rounded
    (suppliers_data : list ScoredSupplier) (n_top : Z) :
  StronglySorted (fun t u => top_Score u <= top_Score t)
    (identify_top_suppliers suppliers_data n_top) /\
  forall t, In t (identify_top_suppliers suppliers_data n_top) ->
    exists row, In row suppliers_data /\ t = select_round row /\
      - (1 # 200) <= top_Score t - Score row <= 1 # 200.
Proof.
  destruct (nlargest_spec Score n_top suppliers_data)
    as (Hperm & _ & Hd & _).
  unfold identify_top_suppliers. split.
  - now apply select_round_descending.
  - intros t Ht. apply in_map_iff in Ht as (row & <- & Hrow).
    exists row. split; [|split; [reflexivity|apply round2_error]].
    apply (Permutation_in row Hperm). apply in_or_app. now left.
Qed.

(** * The size of the Strategic segment *)

Section StrategicCount.

Lemma rank_perm (col col' : list Q) (s : Q) :
  Permutation col col' -> rank col s = rank col' s.
Proof. apply filter_length_perm. Qed.

Lemma no_ties_perm (col col' : list Q) :
  Permutation col col' -> no_ties col -> no_ties col'.
Proof.
  intros Hperm H s. rewrite <- (filter_length_perm _ col col' Hperm). apply H.
Qed.

Lemma no_ties_tail (x : Q) (col : list Q) :
  no_ties (x :: col) -> no_ties col /\ forall y, In y col -> ~ y == x.
Proof.
  intros H. split.
  - intros s. specialize (H s). simpl in H.
    destruct (Qeq_bool x s); simpl in H; lia.
  - intros y Hy Hyx. specialize (H x). simpl in H.
    assert (E : Qeq_bool x x = true) by (apply Qeq_bool_iff; reflexivity).
    rewrite E in H. simpl in H.
    assert (Hpos : (0 < length (List.filter (fun z => Qeq_bool z x) col))%nat).
    { clear H E. induction col as [|z col IH]; [destruct Hy|]. simpl.
      destruct Hy as [->|Hy].
      - apply Qeq_bool_iff in Hyx. rewrite Hyx. simpl. lia.
      - specialize (IH Hy). destruct (Qeq_bool z x); simpl; lia. }
    lia.
Qed.

(** In a descending column without ties the ranks run from the length
    down to 1. *)
Lemma ranks_of_descending (col : list Q) :
  descending (fun q => q) col -> no_ties col ->
  map (rank col) col = rev (seq 1 (length col)).
Proof.
  induction 1 as [|x col Hd IH Hx]; intros Hties; [reflexivity|].
  destruct (no_ties_tail x col Hties) as [Hties' Hne].
  rewrite List.Forall_forall in Hx.
  cbn [map length]. rewrite seq_S, rev_app_distr. cbn [rev app Nat.add].
  f_equal.
  - unfold rank. cbn [List.filter].
    assert (E : Qle_bool x x = true) by (apply Qle_bool_iff, Qle_refl).
    rewrite E. cbn [length]. f_equal.
    rewrite filter_all; [reflexivity|].
    intros y Hy. apply Qle_bool_iff. now apply Hx.
  - rewrite <- IH by exact Hties'. apply map_ext_in.
    intros y Hy. unfold rank. cbn [List.filter].
    assert (E : Qle_bool x y = false).
    { destruct (Qle_bool x y) eqn:E; [|reflexivity].
      apply Qle_bool_iff in E. exfalso. apply (Hne y Hy).
      apply Qle_antisym; [now apply Hx|exact E]. }
    now rewrite E.
Qed.

Lemma filter_length_map {A B : Type} (f : A -> B) (p : B -> bool) (l : list A) :
  length (List.filter p (map f l))
  = length (List.filter (fun a => p (f a)) l).
Proof.
  induction l as [|a l IH]; [reflexivity|]. simpl.
  destruct (p (f a)); simpl; congruence.
Qed.

Lemma count_from_threshold (t n : nat) :
  length (List.filter (fun k => t <=? k)%nat (seq 1 n)) = (n - (t - 1))%nat.
Proof.
  induction n as [|n IH]; [reflexivity|].
  rewrite seq_S, List.filter_app, length_app, IH. cbn [List.filter Nat.add].
  destruct (Nat.leb_spec t (S n)); simpl; lia.
Qed.

Lemma top_twentieth (n : nat) :
  (1 <= n)%nat ->
  length (List.filter (fun k => 19 * n <=? 20 * k)%nat (seq 1 n))
  = (n / 20 + 1)%nat.
Proof.
  intros Hn.
  rewrite (List.filter_ext _ (fun k => n - n / 20 <=? k)%nat).
  - rewrite count_from_threshold.
    pose proof (Nat.div_mod_eq n 20). lia.
  - intros k. pose proof (Nat.div_mod_eq n 20) as Hdm.
    pose proof (Nat.mod_upper_bound n 20 ltac:(lia)) as Hmod.
    destruct (Nat.leb_spec (19 * n) (20 * k)),
             (Nat.leb_spec (n - n / 20) k); try reflexivity; lia.
Qed.

(** How many scores of a column without ties reach the 95th percentile. *)
Lemma count_top_ranks (col : list Q) :
  col <> [] -> no_ties col ->
  length (List.filter
            (fun s => 19 * length col <=? 20 * rank col s)%nat col)
  = (length col / 20 + 1)%nat.
Proof.
  intros Hne Hties.
  set (sorted := sort_values_desc (fun q => q) col).
  assert (Hperm : Permutation col sorted)
    by (symmetry; apply sort_values_desc_permutation).
  rewrite (filter_length_perm _ col sorted Hperm).
  rewrite (List.filter_ext _
             (fun s => 19 * length sorted <=? 20 * rank sorted s)%nat)
    by (intros s; now rewrite (rank_perm col sorted s Hperm),
                              (Permutation_length Hperm)).
  rewrite (Permutation_length Hperm).
  rewrite <- (filter_length_map (rank sorted)
                (fun k => 19 * length sorted <=? 20 * k)%nat).
  rewrite ranks_of_descending.
  - rewrite (filter_length_perm _ _ _
               (Permutation_sym (Permutation_rev (seq 1 (length sorted))))).
    apply top_twentieth.
    rewrite <- (Permutation_length Hperm).
    destruct col; [congruence|simpl; lia].
  - apply sort_values_desc_descending.
  - now apply (no_ties_perm col).
Qed.

Lemma percentile_reaches_95 (col : list Q) (s : Q) :
  col <> [] ->
  Qle_bool 95 (percentile col s)
  = (19 * length col <=? 20 * rank col s)%nat.
Proof.
  intros Hne. pose proof (len_pos col Hne) as Hn.
  assert (Hiff : 95 <= percentile col s
                 <-> (19 * length col <= 20 * rank col s)%nat).
  { rewrite percentile_inclusive_rank. unfold inclusive_rank. fold (rank col s).
    assert (E : len (List.filter (fun x => Qle_bool x s) col)
                == inject_Z (Z.of_nat (rank col s))) by reflexivity.
    rewrite E.
    set (r := inject_Z (Z.of_nat (rank col s))) in *.
    assert (Hq : 95 <= r / len col * 100 <-> 19 * len col <= 20 * r).
    { split; intros H.
      - assert (r / len col * len col == r) by (field; lra).
        assert (0 <= (r / len col * 100 - 95) * len col) by
          (apply Qmult_le_0_compat; lra).
        lra.
      - assert (E' : r / len col * 100 == 100 * r / len col) by (field; lra).
        rewrite E'. apply Qle_shift_div_l; lra. }
    rewrite Hq. unfold r, len.
    change 19 with (inject_Z 19). change 20 with (inject_Z 20).
    rewrite <- !inject_Z_mult, <- Zle_Qle. lia. }
  destruct (Qle_bool 95 (percentile col s)) eqn:E1,
           (Nat.leb_spec (19 * length col) (20 * rank col s));
    try reflexivity.
  - apply Qle_bool_iff, Hiff in E1. lia.
  - apply Hiff, Qle_bool_iff in H. congruence.
Qed.

Lemma classification_of_Strategic (pct : Q) :
  Segment_eqb (classification_of default_thresholds pct) Strategic
  = Qle_bool 95 pct.
Proof.
  unfold classification_of. simpl.
  destruct (Qle_bool 95 pct); [reflexivity|].
  destruct (Qle_bool 85 pct); [reflexivity|].
  destruct (Qle_bool 45 pct); reflexivity.
Qed.

End StrategicCount.

(** X23: how large "the top 5%" is.  With the built-in thresholds, a
    non-empty table of n rows whose scores are all different gets exactly
    n div 20 + 1 Strategic rows (51 of 1000, 1 of 19): the inclusive
    rank puts one more row than a twentieth at or above the 95th
    percentile. *)
Theorem classify_suppliers_strategic_count
    (self : SupplierScoringModel) (data : list Supplier) :
  suppliers_data self = Some data ->
  data <> [] ->
  segmentation_thresholds self = default_thresholds ->
  Forall (scorable self) data ->
  exists out,
    classify_suppliers self = Ok out /\
    (no_ties (map Score out) ->
     length (segment_rows out Strategic) = (length data / 20 + 1)%nat).
Proof.
  intros Hdata Hne Hth Hall.
  destruct (classify_suppliers_returns self data Hdata Hall) as [out Hout].
  destruct (classify_suppliers_inv self data out Hdata Hout) as [Hrows _ Hlab].
  exists out. split; [exact Hout|]. intros Hties.
  assert (Hlen : length out = length data)
    by (rewrite <- Hrows; now rewrite length_map).
  assert (Hcol : map Score out <> []).
  { intros E. apply (f_equal (@length Q)) in E. rewrite length_map in E.
    simpl in E. destruct data; [congruence|]. simpl in Hlen. lia. }
  rewrite <- Hlen, <- (length_map Score out).
  rewrite <- (count_top_ranks (map Score out) Hcol Hties).
  rewrite filter_length_map. unfold segment_rows.
  f_equal. apply List.filter_ext_in. intros a Ha.
  rewrite (Hlab a Ha), Hth, classification_of_Strategic.
  now apply percentile_reaches_95.
Qed.

Lemma classify_suppliers_strategic_count_witness :
  exists out,
    classify_suppliers two_row_model = Ok out /\
    (no_ties (map Score out) ->
     length (segment_rows out Strategic) = (2 / 20 + 1)%nat).
Proof.
  apply (classify_suppliers_strategic_count two_row_model
           [supplier_X; supplier_Y] eq_refl ltac:(discriminate) eq_refl
           two_row_model_scorable).
Defined.

(** * Evaluations of the further functions *)

Example round2_halves :
  Forall2 Qeq (map round2 [2.345; 2.355; -0.125; 93.3333; 7])
              [2.34; 2.36; -0.12; 93.33; 7].
Proof. repeat constructor. Qed.

Example identify_top_two :
  map top_Supplier_ID
    (identify_top_suppliers
       [{| supplier := supplier_Y; Score := 14.236; Classification := Operational |};
        {| supplier := supplier_X; Score := 93.333; Classification := Strategic |};
        {| supplier := malformed_row; Score := 50; Classification := Critical |}]
       2)
  = ["X"; "M"]%string.
Proof. reflexivity. Qed.

Example identify_top_none :
  identify_top_suppliers [spend_row 10; spend_row 20] (-3) = [].
Proof. reflexivity. Qed.

Example segment_profile_analysis_keys :
  map fst
    (segment_profile_analysis
       [segment_row Operational 40 30; segment_row Strategic 90 50;
        segment_row Operational 35 20])
  = [Strategic; Operational].
Proof. reflexivity. Qed.

Example segment_profile_analysis_zero_spend :
  map (fun item => spend_concentration (snd item))
    (segment_profile_analysis
       [segment_row Strategic 90 0; segment_row Operational 40 0])
  = [NaN; NaN].
Proof. reflexivity. Qed.

Example business_unit_analysis_keys :
  map (fun item => (fst item, total_suppliers (snd item)))
    (business_unit_analysis
       [unit_row "Business_Unit_B" Critical 30;
        unit_row "Business_Unit_A" Strategic 50;
        unit_row "Business_Unit_B" Operational 20])
  = [("Business_Unit_B", 2%nat); ("Business_Unit_A", 1%nat)]%string.
Proof. reflexivity. Qed.

Example generated_row_without_parts :
  Sole_Source_Ratio
    (generated_row "SUP_0001" "Business_Unit_A" 100 6 2 2 2
       {| Sole_Source_Parts := 0; Single_Source_Parts := 0;
          Multi_Source_Parts := 0 |})
  == 0.
Proof. reflexivity. Qed.
